(** * Quiz question generator: validation, deduplication, aggregation, reporting

    A shallow embedding of [generate_quiz_questions.py].  Text is modelled as
    [string], one character per code point.  The text methods are Python's
    on ASCII text ([isascii]); outside ASCII Python maps case by the Unicode
    tables (['ß'.upper()] is ['SS']), which is not modelled, so a property
    that rests on a case mapping is stated for ASCII text.  Python [dict]s
    that are only looked up are
    [gmap]s, [set]s are [gset]s, and ordered tables are association lists.
    Award amounts are primitive binary64 floats; float arithmetic follows the
    standard library's specification of binary64. *)

From Stdlib Require Import ZArith String Ascii List Bool Lia Permutation Sorted.
From Stdlib Require Import OrdersEx RelationClasses DecimalString.
From Stdlib Require Import Floats.PrimFloat Floats.FloatOps Floats.SpecFloat.
From stdpp Require Import gmap strings list fin_maps sorting.

Local Open Scope string_scope.
Local Open Scope list_scope.

(** ** Python text primitives *)

Module Py.

(** [c.isspace()] on ASCII: tab, LF, VT, FF, CR, FS, GS, RS, US and space. *)
Definition isspace (c : ascii) : bool :=
  let n := nat_of_ascii c in
  ((9 <=? n) && (n <=? 13) || (28 <=? n) && (n <=? 32))%nat.

(** C-level [Py_ISSPACE], used by [float()] on ASCII text. *)
Definition c_isspace (c : ascii) : bool :=
  let n := nat_of_ascii c in
  ((9 <=? n) && (n <=? 13) || (n =? 32))%nat.

Definition isupper (c : ascii) : bool :=
  let n := nat_of_ascii c in ((65 <=? n) && (n <=? 90))%nat.

Definition islower (c : ascii) : bool :=
  let n := nat_of_ascii c in ((97 <=? n) && (n <=? 122))%nat.

Definition isalpha (c : ascii) : bool := isupper c || islower c.

Definition isdigit (c : ascii) : bool :=
  let n := nat_of_ascii c in ((48 <=? n) && (n <=? 57))%nat.

Definition lower_char (c : ascii) : ascii :=
  if isupper c then ascii_of_nat (nat_of_ascii c + 32) else c.

Definition upper_char (c : ascii) : ascii :=
  if islower c then ascii_of_nat (nat_of_ascii c - 32) else c.

Fixpoint smap (f : ascii -> ascii) (s : string) : string :=
  match s with
  | EmptyString => EmptyString
  | String c s' => String (f c) (smap f s')
  end.

(** [s.lower()] and [s.upper()] on ASCII text. *)
Definition lower (s : string) : string := smap lower_char s.
Definition upper (s : string) : string := smap upper_char s.

(** [s.isascii()]. *)
Fixpoint isascii (s : string) : bool :=
  match s with
  | EmptyString => true
  | String c s' => (nat_of_ascii c <? 128)%nat && isascii s'
  end.

(** [any(p(c) for c in s)]. *)
Fixpoint any (p : ascii -> bool) (s : string) : bool :=
  match s with
  | EmptyString => false
  | String c s' => p c || any p s'
  end.

(** [len(s)]. *)
Definition len (s : string) : nat := String.length s.

(** [s.count(c)] for a one-character pattern. *)
Fixpoint count (c : ascii) (s : string) : nat :=
  match s with
  | EmptyString => 0
  | String d s' => (if Ascii.eqb c d then 1 else 0) + count c s'
  end.

(** [s.replace(c, '')] for a one-character pattern. *)
Fixpoint remove_char (c : ascii) (s : string) : string :=
  match s with
  | EmptyString => EmptyString
  | String d s' => if Ascii.eqb c d then remove_char c s' else String d (remove_char c s')
  end.

(** [s.startswith(p)]. *)
Definition startswith (p s : string) : bool := String.prefix p s.

(** [p in s]: [p] occurs in [s] as a contiguous substring. *)
Fixpoint contains (p s : string) : bool :=
  String.prefix p s ||
  match s with
  | EmptyString => false
  | String _ s' => contains p s'
  end.

Fixpoint lstrip_by (sp : ascii -> bool) (s : string) : string :=
  match s with
  | EmptyString => EmptyString
  | String c s' => if sp c then lstrip_by sp s' else s
  end.

Fixpoint rstrip_by (sp : ascii -> bool) (s : string) : string :=
  match s with
  | EmptyString => EmptyString
  | String c s' =>
      match rstrip_by sp s' with
      | EmptyString => if sp c then EmptyString else String c EmptyString
      | r => String c r
      end
  end.

(** [s.strip()]. *)
Definition strip (s : string) : string := rstrip_by isspace (lstrip_by isspace s).

(** [s.split()]: the maximal runs of non-blank characters, in order.
    [cur] is the run being read. *)
Fixpoint split_from (cur : string) (s : string) : list string :=
  match s with
  | EmptyString => if String.eqb cur "" then [] else [cur]
  | String c s' =>
      if isspace c
      then (if String.eqb cur "" then split_from "" s' else cur :: split_from "" s')
      else split_from (cur +:+ String c "") s'
  end.

Definition split (s : string) : list string := split_from "" s.

(** [sep.join(l)]. *)
Fixpoint join (sep : string) (l : list string) : string :=
  match l with
  | [] => ""
  | [x] => x
  | x :: l' => x +:+ sep +:+ join sep l'
  end.

(** [str(n)] for an integer. *)
Definition str_of_Z (z : Z) : string := NilZero.string_of_int (Z.to_int z).
Definition str_of_nat (n : nat) : string := str_of_Z (Z.of_nat n).

(** *** [float(s)] succeeds *)

Definition skip_sign (s : string) : string :=
  match s with
  | String c s' => if Ascii.eqb c "+" || Ascii.eqb c "-" then s' else s
  | _ => s
  end.

(** Number of leading decimal digits and the rest of the text. *)
Fixpoint span_digits (s : string) : nat * string :=
  match s with
  | String c s' =>
      if isdigit c then let '(n, r) := span_digits s' in (S n, r) else (0, s)
  | EmptyString => (0, s)
  end.

(** An underscore must stand between two digits. [prev] is the character
    before [s]. *)
Fixpoint underscores_ok (prev : ascii) (s : string) : bool :=
  match s with
  | EmptyString => negb (Ascii.eqb prev "_")
  | String c s' =>
      (if Ascii.eqb c "_" then isdigit prev
       else negb (Ascii.eqb prev "_") || isdigit c)
      && underscores_ok c s'
  end.

Definition is_inf_nan (s : string) : bool :=
  let t := lower s in
  String.eqb t "inf" || String.eqb t "infinity" || String.eqb t "nan".

(** The literal grammar: [sign] (inf|infinity|nan), or
    [sign] digits [. digits] with at least one digit, then an optional
    exponent e [sign] digits; all of the text must be used. *)
Definition float_literal (s : string) : bool :=
  let s1 := skip_sign s in
  if is_inf_nan s1 then true else
  let '(n1, r1) := span_digits s1 in
  let '(n2, r2) :=
    match r1 with
    | String "." r => span_digits r
    | _ => (0, r1)
    end in
  if (n1 + n2 =? 0)%nat then false else
  match r2 with
  | EmptyString => true
  | String c r3 =>
      if Ascii.eqb c "e" || Ascii.eqb c "E" then
        let '(n3, r4) := span_digits (skip_sign r3) in
        (0 <? n3)%nat && String.eqb r4 ""
      else false
  end.

(** [float(s)] does not raise: blanks are trimmed, underscores between
    digits are dropped, and what is left is a float literal. *)
Definition float_parses (s : string) : bool :=
  let t := rstrip_by c_isspace (lstrip_by c_isspace s) in
  underscores_ok "000" t && float_literal (remove_char "_" t).

(** Floats are IEEE binary64 values; arithmetic on them follows the
    standard library's specification of binary64, rounding to nearest even. *)

(** [int(x)] for a float: truncation towards zero; raises on infinities
    and NaN. *)
Definition int_of_sf (x : spec_float) : option Z :=
  match x with
  | S754_zero _ => Some 0%Z
  | S754_finite s m e =>
      let v := (if (0 <=? e)%Z then Z.pos m * 2 ^ e else Z.pos m / 2 ^ (- e))%Z in
      Some (if s then (- v)%Z else v)
  | _ => None
  end.

Definition int_of_float (f : float) : option Z := int_of_sf (Prim2SF f).

(** [float(n)] for an integer: the nearest binary64 value (an integer too
    large for the format becomes an infinity, on which [int] raises). *)
Definition float_of_Z (z : Z) : spec_float := binary_normalize prec emax z 0%Z false.

(** [x * y] on floats. *)
Definition float_mul (x y : spec_float) : spec_float := SFmul prec emax x y.

(** [l[:n]], [df.head(n)]: a negative [n] counts from the end. *)
Definition head {A} (n : Z) (l : list A) : list A :=
  if (0 <=? n)%Z then firstn (Z.to_nat n) l
  else firstn (List.length l - Z.to_nat (- n)) l.

(** [sorted(l)] under a total "less or equal" test: a stable insertion sort. *)
Fixpoint insert_sorted {A} (le : A -> A -> bool) (x : A) (l : list A) : list A :=
  match l with
  | [] => [x]
  | y :: l' => if le x y then x :: l else y :: insert_sorted le x l'
  end.

Definition sorted {A} (le : A -> A -> bool) (l : list A) : list A :=
  fold_right (insert_sorted le) [] l.

End Py.

Import Py.

(** ** Data model *)

(** A generated quiz item.  The category is read with
    [q.get('category', 'General')], so it may be absent. *)
Record Question := mkQuestion {
  question : string;
  answer : string;
  category : option string
}.

(** A calendar date (a parsed [Date Received]). *)
Record Date := mkDate { year : Z; month : Z; day : Z }.

(** One prepared recognition record (a row of [self.df]).  A cell of the
    columns [Award Type] and [Submitter Comments] is [None] when it is
    missing and [Some] of its text otherwise. *)
Record Row := mkRow {
  Program_Name : string;
  Date_Received : Date;
  Recipient_Name : string;
  Giver_Name : string;
  Award_Amount : float;
  Award_Type : option string;
  Submitter_Comments : option string
}.

(** Columns derived by [prepare_data]. *)
Definition Month (r : Row) : Z := month (Date_Received r).
Definition Year (r : Row) : Z := year (Date_Received r).
Definition Quarter (r : Row) : Z := ((Month r - 1) / 3 + 1)%Z.

Definition month_names : list string :=
  ["January"; "February"; "March"; "April"; "May"; "June"; "July";
   "August"; "September"; "October"; "November"; "December"].

Definition month_name (m : Z) : string :=
  nth (Z.to_nat (m - 1)) month_names "".

Definition MonthName (r : Row) : string := month_name (Month r).

(** Zero-padded decimal of width [w]. *)
Definition zero_pad (w : nat) (z : Z) : string :=
  let s := str_of_Z z in
  string_of_list_ascii (repeat "0"%char (w - len s)) +:+ s.

(** [d.strftime('%B %d, %Y')] and [d.strftime('%B %Y')]. *)
Definition strftime_B_d_Y (d : Date) : string :=
  month_name (month d) +:+ " " +:+ zero_pad 2 (day d) +:+ ", " +:+ zero_pad 4 (year d).

Definition strftime_B_Y (d : Date) : string :=
  month_name (month d) +:+ " " +:+ zero_pad 4 (year d).

(** ** Answer-format validator *)

Definition who_shaped (question_lower : string) : bool :=
  startswith "who " question_lower || contains " who " question_lower.

Definition quantity_shaped (question_lower : string) : bool :=
  contains "how many" question_lower || contains "what amount" question_lower
  || startswith "how much" question_lower.

Definition is_valid_answer_format (question_text answer : string) : bool :=
  let question_lower := lower question_text in
  if String.eqb answer "" || String.eqb (strip answer) "" then false else
  let answer_str := strip answer in
  if who_shaped question_lower then
    if any isupper answer_str && (len answer_str <? 50)%nat then
      if (0 <? count "." answer_str)%nat || (6 <? List.length (split answer_str))%nat
      then false
      else true
    else false
  else if quantity_shaped question_lower then
    (* try: float(...) / except: pass *)
    if float_parses (remove_char "," answer_str) then
      if negb (any isalpha answer_str) then true else false
    else false
  else if (100 <? len answer_str)%nat || (1 <? count "." answer_str)%nat then false
  else true.

(** ** Interest filter *)

Definition boring_patterns : list string :=
  ["what is the total number"; "list all"; "name all"].

Definition is_interesting_question (q : Question) : bool :=
  let question_text := lower (question q) in
  let answer := lower (answer q) in
  if existsb (fun pattern => contains pattern question_text) boring_patterns then false
  else if (150 <? len answer)%nat then false
  else true.

(** ** Deduplicator *)

Record dedup_state := mkDedup {
  unique_questions : list Question;
  seen_questions : gset string;
  seen_answers : gmap string (gset string)
}.

(** The first five lower-cased words of a question, joined by blanks. *)
Definition signature_of (question_text : string) : string :=
  join " " (firstn 5 (split (lower question_text))).

(** One iteration of the loop over [questions]. *)
Definition dedup_step (st : dedup_state) (q : Question) : dedup_state :=
  let question_text := strip (question q) in
  let answer := strip (answer q) in
  if bool_decide (question_text ∈ seen_questions st) then st else
  let question_signature := signature_of question_text in
  let sigs := default ∅ (seen_answers st !! answer) in
  if bool_decide (is_Some (seen_answers st !! answer)) && (3 <=? size sigs)%nat
     && existsb (fun existing_sig =>
                   contains existing_sig question_signature
                   || contains question_signature existing_sig)
                (elements sigs)
  then st
  else {| unique_questions := unique_questions st ++ [q];
          seen_questions := {[question_text]} ∪ seen_questions st;
          seen_answers := <[answer := {[question_signature]} ∪ sigs]> (seen_answers st) |}.

Definition dedup_init : dedup_state :=
  {| unique_questions := []; seen_questions := ∅; seen_answers := ∅ |}.

Definition deduplicate_questions (questions : list Question) : list Question :=
  unique_questions (fold_left dedup_step questions dedup_init).

(** ** Table operations of the data-frame library

    Frequency tables are ordered by descending count, ties in first-seen
    order; [groupby] orders its groups by ascending key. *)

(** Add one occurrence of [k] to a tally kept in first-seen order. *)
Fixpoint tally_add {K} (eqb : K -> K -> bool) (k : K) (acc : list (K * nat)) : list (K * nat) :=
  match acc with
  | [] => [(k, 1)]
  | (k', n) :: acc' =>
      if eqb k k' then (k', S n) :: acc' else (k', n) :: tally_add eqb k acc'
  end.

Definition tally {K} (eqb : K -> K -> bool) (l : list K) : list (K * nat) :=
  fold_left (fun acc k => tally_add eqb k acc) l [].

Definition count_desc {K} (x y : K * nat) : bool := (snd y <=? snd x)%nat.

(** [series.value_counts()]. *)
Definition value_counts (l : list string) : list (string * nat) :=
  sorted count_desc (tally String.eqb l).

(** The distinct values of a list, in first-seen order. *)
Definition distinct (l : list string) : list string := map fst (tally String.eqb l).

Definition pair_leb (x y : string * string) : bool :=
  if String.eqb (fst x) (fst y) then String.leb (snd x) (snd y)
  else String.leb (fst x) (fst y).

Definition pair_eqb (x y : string * string) : bool :=
  String.eqb (fst x) (fst y) && String.eqb (snd x) (snd y).

Definition key3 : Type := string * Z * Z.

Definition key3_eqb (x y : key3) : bool :=
  let '(n1, y1, m1) := x in
  let '(n2, y2, m2) := y in
  String.eqb n1 n2 && (y1 =? y2)%Z && (m1 =? m2)%Z.

Definition key3_leb (x y : key3) : bool :=
  let '(n1, y1, m1) := x in
  let '(n2, y2, m2) := y in
  if String.eqb n1 n2
  then (if (y1 =? y2)%Z then (m1 <=? m2)%Z else (y1 <=? y2)%Z)
  else String.leb n1 n2.

(** [df.groupby(keys).size().reset_index()]: one row per distinct key, by
    ascending key, with the size of the group. *)
Definition groupby_size {K} (eqb leb : K -> K -> bool) (keys : list K) : list (K * nat) :=
  sorted (fun x y => leb (fst x) (fst y)) (tally eqb keys).

(** ** Aggregator *)

Record Analysis := mkAnalysis {
  top_recipients : list (string * nat);
  top_givers : list (string * nat);
  award_types : list (string * nat);
  programs : list (string * nat);
  top_earners : list (string * float);
  recipients_with_most_unique_givers : list (string * nat);
  recipients_all_q1_months : gmap string (list Z)
}.

(** [q1_2025.groupby('Recipient Name')['Month'].apply(list).to_dict()]: the
    months of each recipient, in row order. *)
Definition months_by_recipient (rows : list (key3 * nat)) : gmap string (list Z) :=
  fold_left
    (fun (acc : gmap string (list Z)) (row : key3 * nat) =>
       let '(name, _, m, _) := row in
       <[name := default [] (acc !! name) ++ [m]]> acc)
    rows ∅.

Definition in_q1_2025 (row : key3 * nat) : bool :=
  let '(_, y, m, _) := row in
  (y =? 2025)%Z && existsb (Z.eqb m) [1; 2; 3]%Z.

Definition _find_consecutive_months_recipients (recipients_by_month : list (key3 * nat))
  : gmap string (list Z) :=
  let q1_2025 := List.filter in_q1_2025 recipients_by_month in
  let recipient_months := months_by_recipient q1_2025 in
  omap (fun months =>
          if (2 <=? List.length months)%nat then Some (sorted Z.leb months) else None)
       recipient_months.

(** The rows of [df.groupby(['Recipient Name', 'Year', 'Month']).size()]. *)
Definition recipients_by_month (df : list Row) : list (key3 * nat) :=
  groupby_size key3_eqb key3_leb
    (map (fun r => (Recipient_Name r, Year r, Month r)) df).

(** The sum of a float column, added up in row order. *)
Definition float_sum (l : list float) : float := fold_left PrimFloat.add l 0%float.

(** The order of [sort_values(ascending=False)]: descending, a total that
    is not a number after every number. *)
Definition float_desc (x y : string * float) : bool :=
  if PrimFloat.is_nan (snd y) then true
  else if PrimFloat.is_nan (snd x) then false
  else PrimFloat.leb (snd y) (snd x).

Definition rows_of_recipient (df : list Row) (name : string) : list Row :=
  List.filter (fun r => String.eqb (Recipient_Name r) name) df.

(** The fields of [analyze_data] that the generators read; the other fields
    only feed the prompt of the text-completion service. *)
Definition analyze_data (df : list Row) : Analysis :=
  let recipients := sorted String.leb (distinct (map Recipient_Name df)) in
  {| top_recipients := firstn 10 (value_counts (map Recipient_Name df));
     top_givers := firstn 10 (value_counts (map Giver_Name df));
     award_types := value_counts (omap Award_Type df);
     programs := value_counts (map Program_Name df);
     top_earners :=
       firstn 10 (sorted float_desc
         (map (fun name => (name, float_sum (map Award_Amount (rows_of_recipient df name))))
              recipients));
     recipients_with_most_unique_givers :=
       firstn 10 (sorted count_desc
         (map (fun name =>
                 (name, List.length (distinct (map Giver_Name (rows_of_recipient df name)))))
              recipients));
     recipients_all_q1_months :=
       _find_consecutive_months_recipients (recipients_by_month df) |}.

(** ** Effects: the pseudo-random generator and the text-completion service

    A run reads two outside sources: the draws of the random generator and
    the replies of the service.  [None] as a reply stands for a call, or the
    parsing of its answer, that raised.  A computation returns [None] when
    an exception escapes it. *)

Record World := mkWorld {
  rng : list nat;
  llm : list (option (list Question))
}.

Definition M (A : Type) : Type := World -> option (A * World).

#[global] Instance M_ret : MRet M := fun A (a : A) w => Some (a, w).

#[global] Instance M_bind : MBind M := fun A B (k : A -> M B) (m : M A) w =>
  match m w with
  | Some (a, w') => k a w'
  | None => None
  end.

(** A computation that reads neither source. *)
Definition pure {A} (o : option A) : M A := fun w =>
  match o with
  | Some a => Some (a, w)
  | None => None
  end.

Fixpoint remove_nth {A} (i : nat) (l : list A) : list A :=
  match l, i with
  | [], _ => []
  | _ :: l', O => l'
  | x :: l', S i' => x :: remove_nth i' l'
  end.

(** Draw [n] rows without replacement: each draw picks one of the rows
    still left. *)
Fixpoint draw {A} (n : nat) (rows : list A) (seeds : list nat) : list A * list nat :=
  match n with
  | O => ([], seeds)
  | S n' =>
      match nth_error rows (hd O seeds mod List.length rows) with
      | None => ([], seeds)
      | Some r =>
          let '(rest, seeds') :=
            draw n' (remove_nth (hd O seeds mod List.length rows) rows) (tl seeds) in
          (r :: rest, seeds')
      end
  end.

(** [df.sample(n)]. *)
Definition sample (n : nat) (df : list Row) : M (list Row) := fun w =>
  let '(rows, seeds) := draw n df (rng w) in
  Some (rows, {| rng := seeds; llm := llm w |}).

(** [self.llm.invoke(prompt)] followed by [json.loads], inside [try]. *)
Definition invoke : M (option (list Question)) := fun w =>
  match llm w with
  | [] => Some (None, w)
  | reply :: later => Some (reply, {| rng := rng w; llm := later |})
  end.

(** ** Question generators *)

Record Limits := mkLimits {
  comment_limit : Z;
  scenario_limit : Z;
  ai_advanced_limit : Z;
  relationship_limit : Z
}.

Definition default_limits : Limits :=
  {| comment_limit := 30; scenario_limit := 40;
     ai_advanced_limit := 40; relationship_limit := 30 |}.

Definition Q (q a c : string) : Question :=
  {| question := q; answer := a; category := Some c |}.

(** [int(limit * share)]. *)
Definition share_of (limit : Z) (share : spec_float) : option Z :=
  int_of_sf (float_mul (float_of_Z limit) share).

(** The float constants 0.3, 0.4 and 0.7 (the nearest binary64 values). *)
Definition f0_3 : spec_float := Eval vm_compute in Prim2SF 0x1.3333333333333p-2%float.
Definition f0_4 : spec_float := Eval vm_compute in Prim2SF 0x1.999999999999ap-2%float.
Definition f0_7 : spec_float := Eval vm_compute in Prim2SF 0x1.6666666666666p-1%float.

(** The three targets of the scenario generator. *)
Definition award_limit (limits : Limits) : option Z := share_of (scenario_limit limits) f0_4.
Definition giver_limit (limits : Limits) : option Z := share_of (scenario_limit limits) f0_3.
Definition recipient_limit (limits : Limits) : option Z := share_of (scenario_limit limits) f0_3.

Definition count_rows (p : Row -> bool) (df : list Row) : nat :=
  List.length (List.filter p df).

(** The frequency table of award types holds no missing value, so only the
    test against the empty text is left of the guard of the award-type
    loop.  Reading the first entry of an empty table raises. *)
Definition generate_factual_questions (analysis : Analysis) (df : list Row)
  : option (list Question) :=
  '(top_recipient, top_recipient_count) ← hd_error (top_recipients analysis);
  '(top_giver, top_giver_count) ← hd_error (top_givers analysis);
  '(top_unique, unique_count) ← hd_error (recipients_with_most_unique_givers analysis);
  '(top_earner, top_amount) ← hd_error (top_earners analysis);
  top_amount_int ← int_of_float top_amount;
  '(top_program, program_count) ← hd_error (programs analysis);
  Some (
    [ Q "Who received the highest number of recognitions?" top_recipient "Recognition Count";
      Q ("How many recognitions did " +:+ top_recipient +:+ " receive?")
        (str_of_nat top_recipient_count) "Recognition Count";
      Q "Who gave the highest number of recognitions?" top_giver "Recognition Count";
      Q ("How many recognitions did " +:+ top_giver +:+ " give?")
        (str_of_nat top_giver_count) "Recognition Count";
      Q "Which recipient has the most unique givers?" top_unique "Unique Relationships";
      Q ("How many unique givers did " +:+ top_unique +:+ " receive recognitions from?")
        (str_of_nat unique_count) "Unique Relationships";
      Q "Who received the highest total award amount?" top_earner "Award Amount";
      Q ("What was the total award amount received by " +:+ top_earner +:+ "?")
        (str_of_Z top_amount_int) "Award Amount";
      Q "Which recognition program was used the most?" top_program "Program Type";
      Q ("How many times was the '" +:+ top_program +:+ "' program used?")
        (str_of_nat program_count) "Program Type" ]
    ++ map (fun '(recipient, count) =>
              Q ("How many recognitions did " +:+ recipient +:+ " receive?")
                (str_of_nat count) "Recognition Count")
           (firstn 5 (skipn 1 (top_recipients analysis)))
    ++ map (fun '(giver, count) =>
              Q ("How many recognitions did " +:+ giver +:+ " give?")
                (str_of_nat count) "Recognition Count")
           (firstn 5 (skipn 1 (top_givers analysis)))
    ++ map (fun '(award_type, count) =>
              Q ("How many recognitions included '" +:+ award_type +:+ "' as the award type?")
                (str_of_nat count) "Award Type")
           (List.filter (fun '(award_type, _) => negb (String.eqb award_type ""))
                        (award_types analysis))
    ++ [ Q "How many recognitions were given in April 2025?"
           (str_of_nat (count_rows (fun r => (Month r =? 4)%Z && (Year r =? 2025)%Z) df))
           "Timeframe";
         Q "How many recognitions were given in March 2025?"
           (str_of_nat (count_rows (fun r => (Month r =? 3)%Z && (Year r =? 2025)%Z) df))
           "Timeframe";
         Q "How many recognitions were given in Q1 2025?"
           (str_of_nat (count_rows (fun r => (Quarter r =? 1)%Z && (Year r =? 2025)%Z) df))
           "Timeframe" ]).

Definition who_gave_question (row : Row) : Question :=
  Q ("Who gave a recognition to " +:+ Recipient_Name row +:+ " on "
       +:+ strftime_B_d_Y (Date_Received row) +:+ "?")
    (Giver_Name row) "Giver-Recipient Relationship".

Definition generate_relationship_questions (limits : Limits) (df : list Row)
  : option (list Question) :=
  let pairs :=
    sorted count_desc
      (groupby_size pair_eqb pair_leb (map (fun r => (Giver_Name r, Recipient_Name r)) df)) in
  share_pairs ← share_of (relationship_limit limits) f0_3;
  let pair_limit := Z.min share_pairs (Z.of_nat (List.length pairs)) in
  share_dates ← share_of (relationship_limit limits) f0_7;
  let date_limit := Z.min share_dates (Z.of_nat (List.length df)) in
  Some (
    map (fun '(giver, recipient, count) =>
           Q ("How many times did " +:+ giver +:+ " recognize " +:+ recipient +:+ "?")
             (str_of_nat count) "Giver-Recipient Relationship")
        (List.filter (fun row => (1 <? snd row)%nat) (head pair_limit pairs))
    ++ map who_gave_question (head date_limit df)).

(** A comment is used when it is present and longer than 50 characters. *)
Definition meaningful_comment (r : Row) : bool :=
  match Submitter_Comments r with
  | Some c => (50 <? len c)%nat
  | None => false
  end.

(** One reply per eligible record; a failed unit is skipped. *)
Fixpoint ask_for_each (rows : list Row) : M (list Question) :=
  match rows with
  | [] => mret []
  | _ :: rows' =>
      reply ← invoke;
      later ← ask_for_each rows';
      mret (match reply with
            | Some generated_questions => generated_questions ++ later
            | None => later
            end)
  end.

Definition has_comment (r : Row) : bool :=
  match Submitter_Comments r with
  | Some _ => true
  | None => false
  end.

(** [comments_df['Submitter Comments'].str]: the accessor exists on a column
    of text.  [read_csv] reads a column in which every cell is missing as a
    column of floats, on which [.str] raises [AttributeError]; the columns of
    a file without records are of type [object], which has the accessor. *)
Definition str_accessor (df : list Row) : option unit :=
  match df with
  | [] => Some tt
  | _ :: _ => if existsb has_comment df then Some tt else None
  end.

(** The filter on the comment column stands before the loop, outside its
    [try]. *)
Definition generate_ai_questions_from_comments (limits : Limits) (df : list Row)
  : M (list Question) :=
  _ ← pure (str_accessor df);
  let comments_df := List.filter meaningful_comment df in
  ask_for_each (head (comment_limit limits) comments_df).

Definition generate_advanced_ai_questions (analysis : Analysis) : M (list Question) :=
  reply ← invoke;
  mret (match reply with
        | Some generated_questions => generated_questions
        | None => []
        end).

Definition award_question (row : Row) (amount : Z) : Question :=
  Q ("What award amount did " +:+ Recipient_Name row +:+ " receive from "
       +:+ Giver_Name row +:+ " on " +:+ strftime_B_d_Y (Date_Received row) +:+ "?")
    (str_of_Z amount) "Specific Award".

(** The first loop of the scenario generator: [(questions, count)]. *)
Definition award_step (n_award : Z) (acc : option (list Question * Z)) (row : Row)
  : option (list Question * Z) :=
  '(questions, count) ← acc;
  if negb (PrimFloat.is_nan (Award_Amount row))
     && PrimFloat.ltb 0 (Award_Amount row) && (count <? n_award)%Z
  then amount ← int_of_float (Award_Amount row);
       Some (questions ++ [award_question row amount], (count + 1)%Z)
  else Some (questions, count).

Definition award_questions (n_award : Z) (df : list Row) : option (list Question) :=
  fst <$> fold_left (award_step n_award)
            (head (Z.min (n_award * 2) (Z.of_nat (List.length df))) df)
            (Some ([], 0%Z)).

Definition who_received_question (row : Row) : Question :=
  Q ("Who received a " +:+ Program_Name row +:+ " from " +:+ Giver_Name row +:+ " in "
       +:+ strftime_B_Y (Date_Received row) +:+ "?")
    (Recipient_Name row) "Recognition Details".

(** [if limit > 0 and len(df) > 0: ... df.sample(min(limit, len(df)))]. *)
Definition sampled_questions (limit : Z) (df : list Row) (mk : Row -> Question)
  : M (list Question) :=
  if (0 <? limit)%Z && (0 <? List.length df)%nat then
    rows ← sample (Z.to_nat (Z.min limit (Z.of_nat (List.length df)))) df;
    mret (map mk rows)
  else mret [].

Definition generate_specific_scenario_questions (limits : Limits) (df : list Row)
  : M (list Question) :=
  n_award ← pure (award_limit limits);
  n_giver ← pure (giver_limit limits);
  n_recipient ← pure (recipient_limit limits);
  awards ← pure (award_questions n_award df);
  givers ← sampled_questions n_giver df who_gave_question;
  recipients ← sampled_questions n_recipient df who_received_question;
  mret (awards ++ givers ++ recipients).

(** ** The pipeline *)

(** Validation, interest filter and deduplication of the raw questions. *)
Definition select_questions (all_questions : list Question) : list Question :=
  let valid_questions :=
    List.filter (fun q => is_valid_answer_format (question q) (answer q)) all_questions in
  let interesting_questions := List.filter is_interesting_question valid_questions in
  deduplicate_questions interesting_questions.

Definition generate_all_questions (limits : Limits) (df : list Row) : M (list Question) :=
  let analysis := analyze_data df in
  factual ← pure (generate_factual_questions analysis df);
  relationship ← pure (generate_relationship_questions limits df);
  from_comments ← generate_ai_questions_from_comments limits df;
  advanced ← generate_advanced_ai_questions analysis;
  scenario ← generate_specific_scenario_questions limits df;
  mret (select_questions (factual ++ relationship ++ from_comments ++ advanced ++ scenario)).

(** ** Persistence and reporting *)

(** [save_questions] dumps the list as it is: the persisted document holds
    the question objects in order. *)
Definition save_questions (questions : list Question) : list Question := questions.

(** The run of [main]: generate, then persist. *)
Definition persisted (limits : Limits) (df : list Row) : M (list Question) :=
  questions ← generate_all_questions limits df;
  mret (save_questions questions).

(** [q.get('category', 'General')]. *)
Definition category_of (q : Question) : string := default "General" (category q).

(** [by_category[k].append(q)] on a dictionary kept in insertion order. *)
Fixpoint append_to (k : string) (q : Question) (d : list (string * list Question))
  : list (string * list Question) :=
  match d with
  | [] => [(k, [q])]
  | (k', qs) :: d' =>
      if String.eqb k k' then (k', qs ++ [q]) :: d' else (k', qs) :: append_to k q d'
  end.

Definition group_by_category (questions : list Question) : list (string * list Question) :=
  fold_left (fun d q => append_to (category_of q) q d) questions [].

(** [sorted(by_category.items())]: the keys are distinct, so the items are
    ordered by their key. *)
Definition sorted_categories (questions : list Question) : list (string * list Question) :=
  sorted (fun x y => String.leb (fst x) (fst y)) (group_by_category questions).

(** One [f.write] of the text report. *)
Inductive line :=
| Title (total : nat)
| Rule
| Category_rule
| Category_header (category : string) (n : nat)
| Category_rule_end
| Q_line (question_num : nat) (text : string)
| Answer_line (text : string).

(** The questions of one category; returns the lines and the counter. *)
Fixpoint write_questions (question_num : nat) (qs : list Question) : list line * nat :=
  match qs with
  | [] => ([], question_num)
  | q :: qs' =>
      let '(lines, n) := write_questions (S question_num) qs' in
      (Q_line question_num (question q) :: Answer_line (answer q) :: lines, n)
  end.

Fixpoint write_categories (question_num : nat) (items : list (string * list Question))
  : list line :=
  match items with
  | [] => []
  | (category, qs) :: items' =>
      let '(lines, n) := write_questions question_num qs in
      Category_rule :: Category_header category (List.length qs) :: Category_rule_end
        :: lines ++ write_categories n items'
  end.

Definition save_questions_formatted (questions : list Question) : list line :=
  Title (List.length questions) :: Rule
    :: write_categories 1 (sorted_categories questions).

Definition nl : string := String (ascii_of_nat 10) "".
Definition rule80 : string := string_of_list_ascii (repeat "="%char 80).

(** The text of each write. *)
Definition render (l : line) : string :=
  match l with
  | Title total => "QUIZ QUESTIONS - TOTAL: " +:+ str_of_nat total +:+ nl
  | Rule => rule80 +:+ nl +:+ nl
  | Category_rule => nl +:+ rule80 +:+ nl
  | Category_header category n =>
      "CATEGORY: " +:+ upper category +:+ " (" +:+ str_of_nat n +:+ " questions)" +:+ nl
  | Category_rule_end => rule80 +:+ nl +:+ nl
  | Q_line question_num text => "Q" +:+ str_of_nat question_num +:+ ": " +:+ text +:+ nl
  | Answer_line text => "Answer: " +:+ text +:+ nl +:+ nl
  end.

Definition report_text (questions : list Question) : string :=
  fold_right String.append "" (map render (save_questions_formatted questions)).

(** The question numbers written under each category header, in order:
    the numbers before the first header, and those of each section. *)
Fixpoint section_numbers (lines : list line) : list nat * list (string * list nat) :=
  match lines with
  | [] => ([], [])
  | l :: lines' =>
      let '(before, sections) := section_numbers lines' in
      match l with
      | Category_header category _ => ([], (category, before) :: sections)
      | Q_line n _ => (n :: before, sections)
      | _ => (before, sections)
      end
  end.


(** ** Reference notions used to state the properties *)

(** The category labels that the templates and prompts of the source name. *)
Definition known_categories : list string :=
  ["Recognition Count"; "Unique Relationships"; "Award Amount"; "Program Type";
   "Award Type"; "Timeframe"; "Giver-Recipient Relationship"; "Specific Award";
   "Recognition Details"; "Comment-Based"; "Comparative"; "Statistical";
   "Award-specific"; "General"].

(** The category of a question is present and is one of these labels. *)
Definition known_category (q : Question) : bool :=
  match category q with
  | Some c => existsb (String.eqb c) known_categories
  | None => false
  end.

(** "who" occurs as a word of its own in the lower-cased question. *)
Definition has_word_who (question_text : string) : bool :=
  existsb (String.eqb "who") (split (lower question_text)).

(** The name-shaped contract on a trimmed answer. *)
Definition name_shaped (answer_str : string) : bool :=
  any isupper answer_str && (len answer_str <? 50)%nat
  && (count "." answer_str =? 0)%nat && (List.length (split answer_str) <=? 6)%nat.

(** The number-shaped contract on a trimmed answer. *)
Definition number_shaped (answer_str : string) : bool :=
  float_parses (remove_char "," answer_str) && negb (any isalpha answer_str).

(** The months of the first quarter of 2025 in which [name] has a record. *)
Definition q1_months (df : list Row) (name : string) : list Z :=
  List.filter
    (fun m => existsb (fun r => String.eqb (Recipient_Name r) name
                                && (Year r =? 2025)%Z && (Month r =? m)%Z) df)
    [1; 2; 3]%Z.

(** The text under which a question is remembered. *)
Definition text_key (q : Question) : string := strip (question q).

(** What the loop maintains: the remembered texts are those of the accepted
    questions, and no two accepted questions share a text. *)
Definition dedup_inv (st : dedup_state) : Prop :=
  NoDup (map text_key (unique_questions st))
  /\ forall t, t ∈ seen_questions st <-> t ∈ map text_key (unique_questions st).

(** The drop rule as the comments of the source word it: the text was seen,
    or three accepted questions already carry the answer and the signature
    collides with the signature of one of them. *)
Definition drop_rule (accepted : list Question) (q : Question) : bool :=
  let same_answer :=
    List.filter (fun p => String.eqb (strip (answer p)) (strip (answer q))) accepted in
  existsb (fun p => String.eqb (text_key p) (text_key q)) accepted
  || (3 <=? List.length same_answer)%nat
     && existsb (fun p => contains (signature_of (text_key p)) (signature_of (text_key q))
                          || contains (signature_of (text_key q)) (signature_of (text_key p)))
                same_answer.

(** A count question about one month, with the answer "0". *)
Definition month_question (m : string) : Question :=
  Q ("How many recognitions were given in " +:+ m +:+ " 2025?") "0" "Timeframe".

(** The sign bit of a float is clear. *)
Definition sf_nonneg (x : spec_float) : Prop :=
  match x with
  | S754_zero s | S754_infinity s | S754_finite s _ _ => s = false
  | S754_nan => True
  end.



(** A small record set: three recipients, one giver. *)
Definition demo_row (recipient giver : string) (amount : float) (y m d : Z) : Row :=
  {| Program_Name := "Spot Award"; Date_Received := mkDate y m d;
     Recipient_Name := recipient; Giver_Name := giver; Award_Amount := amount;
     Award_Type := Some "Points"; Submitter_Comments := None |}.

(** Ada has records in January and March 2025, Alan in January only. *)
Definition demo_df : list Row :=
  [ demo_row "Ada" "Grace" 100 2025 1 5;
    demo_row "Ada" "Grace" 50 2025 3 10;
    demo_row "Alan" "Grace" 0 2025 1 20 ].

(** The small record set with one more record, which carries a comment of
    more than 50 characters: the comment column holds text. *)
Definition commented_df : list Row :=
  demo_df ++
  [ {| Program_Name := "Spot Award"; Date_Received := mkDate 2025 4 2;
       Recipient_Name := "Edsger"; Giver_Name := "Grace"; Award_Amount := 25;
       Award_Type := Some "Points";
       Submitter_Comments :=
         Some "Edsger rewrote the nightly build so that it finishes in ten minutes." |} ].

(** The service answers the first request with a question of its own
    category; later requests fail. *)
Definition demo_world : World :=
  {| rng := [3; 1; 4; 1; 5]%nat;
     llm := [Some [ {| question := "What project won the hackathon?";
                       answer := "Apollo"; category := Some "Trivia" |} ]] |}.


(** A question that one of the replies of the service holds. *)
Definition from_service (w : World) (q : Question) : Prop :=
  exists reply, In (Some reply) (llm w) /\ In q reply.

(** The category of a question is one of the labels of the source. *)
Definition known (q : Question) : Prop := known_category q = true.

(** A question that the service labels with a category of its own. *)
Definition trivia_question : Question :=
  {| question := "What project won the hackathon?";
     answer := "Apollo"; category := Some "Trivia" |}.

(** What a run on the record set with a comment persists. *)
Definition demo_persisted : list Question * World :=
  Eval vm_compute in
    default ([], demo_world) (persisted default_limits commented_df demo_world).

(** The months that the rows of [name] list, in row order. *)
Definition months_of (name : string) (rows : list (key3 * nat)) : list Z :=
  map (fun row => snd (fst row))
      (List.filter (fun row => String.eqb (fst (fst (fst row))) name) rows).

(** One step of the grouping of months by recipient. *)
Definition months_step (acc : gmap string (list Z)) (row : key3 * nat) : gmap string (list Z) :=
  let '(name, _, m, _) := row in <[name := default [] (acc !! name) ++ [m]]> acc.

(** The grouping keys of the records. *)
Definition keys_of (df : list Row) : list key3 :=
  map (fun r => (Recipient_Name r, Year r, Month r)) df.

(** The questions of one category, in input order. *)
Definition questions_of (c : string) (qs : list Question) : list Question :=
  List.filter (fun q => String.eqb (category_of q) c) qs.

(** [d.get(c)] on a dictionary kept as an association list. *)
Fixpoint assoc (c : string) (d : list (string * list Question)) : option (list Question) :=
  match d with
  | [] => None
  | (k, l) :: d' => if String.eqb k c then Some l else assoc c d'
  end.

(** The number of questions in all sections. *)
Fixpoint total (d : list (string * list Question)) : nat :=
  match d with
  | [] => 0
  | (_, l) :: d' => List.length l + total d'
  end.


(** One step of the grouping by category. *)
Definition category_step (d : list (string * list Question)) (q : Question) :=
  append_to (category_of q) q d.

(** The order of the sections: by category name. *)
Definition key_leb (x y : string * list Question) : bool := String.leb (fst x) (fst y).

(** The accepted questions that carry the answer [a]. *)
Definition same_answer (a : string) (accepted : list Question) : list Question :=
  List.filter (fun p => String.eqb (strip (answer p)) a) accepted.

(** Every stored signature comes from an accepted question with that
    answer, so an answer has at least as many accepted questions as stored
    signatures. *)
Definition signatures_inv (st : dedup_state) : Prop :=
  forall a S, seen_answers st !! a = Some S ->
    (forall s, s ∈ S -> exists p, In p (same_answer a (unique_questions st))
                                  /\ signature_of (text_key p) = s)
    /\ size S <= List.length (same_answer a (unique_questions st)).

(** Every character of the text satisfies [p]. *)
Fixpoint all_chars (p : ascii -> bool) (s : string) : bool :=
  match s with
  | EmptyString => true
  | String c s' => p c && all_chars p s'
  end.




(** The question and answer texts written to the report, in order. *)
Fixpoint written (lines : list line) : list (string * string) :=
  match lines with
  | [] => []
  | l :: lines' =>
      match l, lines' with
      | Q_line _ text, Answer_line a :: rest => (text, a) :: written rest
      | _, _ => written lines'
      end
  end.

(** The question and answer texts of a question. *)
Definition texts_of (q : Question) : string * string := (question q, answer q).

(** The category headers of the report, with their counts. *)
Fixpoint headers (lines : list line) : list (string * nat) :=
  match lines with
  | [] => []
  | Category_header c n :: lines' => (c, n) :: headers lines'
  | _ :: lines' => headers lines'
  end.

(** ** The standalone checker *)

(** What the checker collects: the three groups of questions, each entry
    with its number in the file, and the entries it reports as problematic
    with the reason. *)
Record checked := mkChecked {
  who_questions : list (nat * string * string);
  how_many_questions : list (nat * string * string);
  other_questions : list (nat * string * string);
  problematic : list (nat * string * string * string)
}.

(** The complaint of the checker about one question, if any. *)
Definition issue_of (q : Question) : option string :=
  let question_text := lower (question q) in
  let answer := answer q in
  if who_shaped question_text then
    if negb (any isupper answer) || (50 <? len answer)%nat || contains "." answer
    then Some "Invalid name format" else None
  else if contains "how many" question_text || contains "what amount" question_text then
    (* try: float(...) / except *)
    if float_parses (remove_char "," answer)
    then (if any isalpha answer then Some "Number should not contain letters" else None)
    else Some "Not a valid number"
  else if (100 <? len answer)%nat then Some "Answer too long" else None.

(** One iteration of the loop over [enumerate(questions, 1)]. *)
Definition check_step (st : checked) (iq : nat * Question) : checked :=
  let '(i, q) := iq in
  let question_text := lower (question q) in
  let entry := (i, question q, answer q) in
  let problems :=
    match issue_of q with
    | Some reason => problematic st ++ [(i, question q, answer q, reason)]
    | None => problematic st
    end in
  if who_shaped question_text then
    {| who_questions := who_questions st ++ [entry];
       how_many_questions := how_many_questions st;
       other_questions := other_questions st; problematic := problems |}
  else if contains "how many" question_text || contains "what amount" question_text then
    {| who_questions := who_questions st;
       how_many_questions := how_many_questions st ++ [entry];
       other_questions := other_questions st; problematic := problems |}
  else
    {| who_questions := who_questions st;
       how_many_questions := how_many_questions st;
       other_questions := other_questions st ++ [entry]; problematic := problems |}.

Definition checked_init : checked :=
  {| who_questions := []; how_many_questions := []; other_questions := [];
     problematic := [] |}.

(** [enumerate(l, 1)]. *)
Definition enumerate1 {A} (l : list A) : list (nat * A) := combine (seq 1 (List.length l)) l.

(** [len(question_texts) - len(set(question_texts))]. *)
Definition duplicates (questions : list Question) : nat :=
  (List.length (map question questions)
   - size (list_to_set (map question questions) : gset string))%nat.

(** The category distribution: [q.get('category', 'Unknown')] counted and
    ordered by descending count. *)
Definition category_distribution (questions : list Question) : list (string * nat) :=
  sorted count_desc (tally String.eqb (map (fun q => default "Unknown" (category q)) questions)).

(** The data that [validate_questions] computes and prints: the number of
    duplicates, the classified questions with the problematic ones, and the
    category distribution. *)
Definition validate_questions (questions : list Question)
  : nat * checked * list (string * nat) :=
  (duplicates questions, fold_left check_step (enumerate1 questions) checked_init,
   category_distribution questions).

(** ** The text download of the web application *)

(** The loop over the questions of one category: [(txt_content, question_num)]. *)
Fixpoint txt_questions (txt_content : string) (question_num : nat) (qs : list Question)
  : string * nat :=
  match qs with
  | [] => (txt_content, question_num)
  | q :: qs' =>
      txt_questions
        ((txt_content +:+ ("Q" +:+ str_of_nat question_num +:+ ": " +:+ question q +:+ nl))
           +:+ ("Answer: " +:+ answer q +:+ nl +:+ nl))
        (S question_num) qs'
  end.

Fixpoint txt_categories (txt_content : string) (question_num : nat)
    (items : list (string * list Question)) : string :=
  match items with
  | [] => txt_content
  | (category, qs) :: items' =>
      let '(txt, n) :=
        txt_questions
          (((txt_content +:+ (nl +:+ rule80 +:+ nl))
              +:+ ("CATEGORY: " +:+ upper category +:+ " (" +:+ str_of_nat (List.length qs)
                     +:+ " questions)" +:+ nl))
             +:+ (rule80 +:+ nl +:+ nl))
          question_num qs in
      txt_categories txt n items'
  end.

(** [txt_content] of the download button in [streamlit_app.py]. *)
Definition download_txt (questions : list Question) : string :=
  txt_categories
    (("QUIZ QUESTIONS - TOTAL: " +:+ str_of_nat (List.length questions) +:+ nl)
       +:+ (rule80 +:+ nl +:+ nl))
    1 (sorted_categories questions).

(** The concatenation of the writes to a file. *)
Definition file_text (lines : list line) : string := fold_right String.append "" (map render lines).

(** ** Further reference notions *)

(** The relationship questions of the small record set under the default
    limits. *)
Definition demo_relationship : list Question :=
  Eval vm_compute in default [] (generate_relationship_questions default_limits demo_df).

(** The count that a tally holds for a key, 0 when the key is absent. *)
Fixpoint tally_get {K} (eqb : K -> K -> bool) (k : K) (acc : list (K * nat)) : nat :=
  match acc with
  | [] => 0
  | (k', n) :: acc' => if eqb k k' then n else tally_get eqb k acc'
  end.

(** The number of records of a recipient. *)
Definition records_of (df : list Row) (name : string) : nat :=
  count_rows (fun r => String.eqb (Recipient_Name r) name) df.

(** The signatures stored for the answer [a] when [accepted] are the
    accepted questions: a set, so equal signatures count once. *)
Definition stored_signatures (accepted : list Question) (a : string) : gset string :=
  list_to_set (map (fun p => signature_of (text_key p)) (same_answer a accepted)).

(** The test of the loop, read on the accepted questions alone: the text
    was accepted before, or the accepted questions with the same answer
    carry at least three distinct signatures and one of them contains, or is
    contained in, the signature of the question. *)
Definition dropped_after (accepted : list Question) (q : Question) : bool :=
  existsb (fun p => String.eqb (text_key p) (text_key q)) accepted
  || (3 <=? size (stored_signatures accepted (strip (answer q))))%nat
     && existsb (fun p => contains (signature_of (text_key p)) (signature_of (text_key q))
                          || contains (signature_of (text_key q)) (signature_of (text_key p)))
                (same_answer (strip (answer q)) accepted).

(** The dictionary of signatures is determined by the accepted questions. *)
Definition stored_inv (st : dedup_state) : Prop :=
  forall a, default ∅ (seen_answers st !! a) = stored_signatures (unique_questions st) a.

(** * Properties *)

(** ** Answer-format validator *)

Lemma strip_empty : strip "" = "".
Proof. reflexivity. Qed.

Lemma name_shaped_empty : name_shaped "" = false.
Proof. reflexivity. Qed.

Lemma eqb_empty_strip (a : string) : String.eqb a "" = true -> String.eqb (strip a) "" = true.
Proof. intros H. apply String.eqb_eq in H. subst a. reflexivity. Qed.

(** The validator on a who-shaped question, as one boolean formula. *)
Lemma valid_who (q a : string) :
  who_shaped (lower q) = true ->
  is_valid_answer_format q a = name_shaped (strip a).
Proof.
  intros Hwho. unfold is_valid_answer_format. rewrite Hwho.
  destruct (String.eqb a "") eqn:Ha.
  - apply eqb_empty_strip in Ha. apply String.eqb_eq in Ha. rewrite Ha. reflexivity.
  - cbn [orb]. destruct (String.eqb (strip a) "") eqn:Hs.
    + apply String.eqb_eq in Hs. rewrite Hs. reflexivity.
    + unfold name_shaped.
      destruct (any isupper (strip a)); cbn [andb]; [|reflexivity].
      destruct (len (strip a) <? 50)%nat; cbn [andb]; [|reflexivity].
      destruct (count "." (strip a)) as [|k] eqn:Hc; cbn.
      * destruct (List.length (split (strip a))) as [|[|[|[|[|[|[|n]]]]]]]; reflexivity.
      * reflexivity.
Qed.

(** The validator on a quantity-shaped question that is not who-shaped. *)
Lemma valid_quantity (q a : string) :
  who_shaped (lower q) = false ->
  quantity_shaped (lower q) = true ->
  is_valid_answer_format q a = number_shaped (strip a).
Proof.
  intros Hwho Hq. unfold is_valid_answer_format. rewrite Hwho, Hq.
  destruct (String.eqb a "") eqn:Ha.
  - apply eqb_empty_strip in Ha. apply String.eqb_eq in Ha. rewrite Ha. reflexivity.
  - cbn [orb]. destruct (String.eqb (strip a) "") eqn:Hs.
    + apply String.eqb_eq in Hs. rewrite Hs. reflexivity.
    + unfold number_shaped.
      destruct (float_parses (remove_char "," (strip a))); cbn [andb]; [|reflexivity].
      destruct (any isalpha (strip a)); reflexivity.
Qed.

(** An accepted answer is never empty or blank. *)
Lemma valid_answer_not_blank (q a : string) :
  is_valid_answer_format q a = true -> strip a <> "".
Proof.
  unfold is_valid_answer_format. intros H Hs.
  rewrite Hs in H. rewrite orb_true_r in H. discriminate.
Qed.

(** C3, as amended.  When the lower-cased question starts with "who " or
    contains " who ", the validator accepts exactly the answers that, once
    trimmed, hold an uppercase letter, are shorter than 50 characters, hold
    no period and have at most 6 words; the answer
    "John A. Smith Jr. reportedly" is rejected for such a question. *)
Theorem who_answer_contract (q a : string) :
  who_shaped (lower q) = true ->
  (is_valid_answer_format q a = true <->
     any isupper (strip a) = true /\ (len (strip a) < 50)%nat
     /\ count "." (strip a) = 0%nat /\ (List.length (split (strip a)) <= 6)%nat)
  /\ is_valid_answer_format q "John A. Smith Jr. reportedly" = false.
Proof.
  intros Hwho. split.
  - rewrite (valid_who q a Hwho). unfold name_shaped.
    rewrite !andb_true_iff, Nat.ltb_lt, Nat.eqb_eq, Nat.leb_le. tauto.
  - rewrite (valid_who _ _ Hwho). reflexivity.
Qed.

Lemma who_answer_contract_witness :
  (is_valid_answer_format "Who gave the most awards?" " Ada Lovelace " = true <->
     any isupper (strip " Ada Lovelace ") = true /\ (len (strip " Ada Lovelace ") < 50)%nat
     /\ count "." (strip " Ada Lovelace ") = 0%nat
     /\ (List.length (split (strip " Ada Lovelace ")) <= 6)%nat)
  /\ is_valid_answer_format "Who gave the most awards?" "John A. Smith Jr. reportedly" = false.
Proof. apply (who_answer_contract "Who gave the most awards?" " Ada Lovelace "). reflexivity. Defined.

(** C3 as stated fails: "Guess who" holds the word "who" on its own, yet
    the validator treats it as an other-shaped question and accepts the
    answer "nobody", which has no uppercase letter. *)
Lemma who_word_counterexample :
  ~ (forall q a : string,
       has_word_who q = true ->
       (is_valid_answer_format q a = true <->
          any isupper (strip a) = true /\ (len (strip a) < 50)%nat
          /\ count "." (strip a) = 0%nat /\ (List.length (split (strip a)) <= 6)%nat)).
Proof.
  intros H. specialize (H "Guess who" "nobody" eq_refl).
  destruct H as [H _]. specialize (H eq_refl). destruct H as [H _].
  vm_compute in H. discriminate.
Qed.

(** C4.  For a question that is not who-shaped and whose lower-cased text
    contains "how many" or "what amount" or starts with "how much", the
    validator accepts exactly the answers that, once trimmed, parse as a
    number after their commas are removed and hold no letter; "12,500" is
    accepted. *)
Theorem quantity_answer_contract (q a : string) :
  who_shaped (lower q) = false ->
  quantity_shaped (lower q) = true ->
  (is_valid_answer_format q a = true <->
     float_parses (remove_char "," (strip a)) = true /\ any isalpha (strip a) = false)
  /\ is_valid_answer_format q "12,500" = true.
Proof.
  intros Hwho Hq. split.
  - rewrite (valid_quantity q a Hwho Hq). unfold number_shaped.
    rewrite andb_true_iff, negb_true_iff. tauto.
  - rewrite (valid_quantity _ _ Hwho Hq). reflexivity.
Qed.

Lemma quantity_answer_contract_witness :
  (is_valid_answer_format "How many awards were given?" "1,204" = true <->
     float_parses (remove_char "," (strip "1,204")) = true
     /\ any isalpha (strip "1,204") = false)
  /\ is_valid_answer_format "How many awards were given?" "12,500" = true.
Proof.
  apply (quantity_answer_contract "How many awards were given?" "1,204"); reflexivity.
Defined.

(** ** Deduplicator *)

Lemma dedup_inv_init : dedup_inv dedup_init.
Proof.
  split; cbn.
  - constructor.
  - intros t. split; intros H; [set_solver | inversion H].
Qed.

Lemma dedup_inv_step (st : dedup_state) (q : Question) :
  dedup_inv st -> dedup_inv (dedup_step st q).
Proof.
  intros [Hnd Hseen]. unfold dedup_step.
  case_bool_decide as Hin; [split; assumption|].
  match goal with |- dedup_inv (if ?c then _ else _) => destruct c end;
    [split; assumption|].
  split; cbn [unique_questions seen_questions].
  - rewrite map_app. apply NoDup_app. split; [assumption|]. split.
    + intros t Ht Hq. cbn in Hq. apply list_elem_of_singleton in Hq. subst t.
      apply Hin. apply Hseen. exact Ht.
    + apply NoDup_singleton.
  - intros t. rewrite map_app, elem_of_app, elem_of_union, elem_of_singleton.
    cbn. rewrite list_elem_of_singleton. rewrite Hseen. unfold text_key. tauto.
Qed.

Lemma fold_left_invariant {S A} (P : S -> Prop) (f : S -> A -> S) (l : list A) (s : S) :
  (forall s a, P s -> P (f s a)) -> P s -> P (fold_left f l s).
Proof.
  intros Hstep. revert s. induction l as [|a l IH]; intros s Hs; cbn; [assumption|].
  apply IH, Hstep, Hs.
Qed.

(** The accepted questions are taken from the input. *)
Lemma dedup_step_subset (st : dedup_state) (q x : Question) :
  x ∈ unique_questions (dedup_step st q) -> x ∈ unique_questions st \/ x = q.
Proof.
  unfold dedup_step. case_bool_decide; [tauto|].
  match goal with |- context [if ?c then _ else _] => destruct c end; [tauto|].
  cbn. rewrite elem_of_app, list_elem_of_singleton. tauto.
Qed.

Lemma deduplicate_subset (questions : list Question) (x : Question) :
  x ∈ deduplicate_questions questions -> x ∈ questions.
Proof.
  unfold deduplicate_questions.
  assert (G : forall l st, x ∈ unique_questions (fold_left dedup_step l st) ->
                           x ∈ unique_questions st \/ x ∈ l).
  { induction l as [|q l IH]; intros st H; cbn in *; [tauto|].
    apply IH in H. destruct H as [H|H].
    - apply dedup_step_subset in H. destruct H as [H| ->]; [tauto|].
      right. constructor.
    - right. constructor. exact H. }
  intros H. apply G in H. destruct H as [H|H]; [inversion H|exact H].
Qed.

(** C5.  In the list returned by the deduplicator the question texts,
    trimmed of surrounding blanks, are pairwise distinct. *)
Theorem deduplicated_texts_distinct (questions : list Question) :
  NoDup (map (fun q => strip (question q)) (deduplicate_questions questions)).
Proof.
  unfold deduplicate_questions.
  apply (fold_left_invariant dedup_inv dedup_step questions dedup_init dedup_inv_step
           dedup_inv_init).
Qed.

Lemma same_answer_app (a : string) (l : list Question) (q : Question) :
  same_answer a (l ++ [q])
  = same_answer a l ++ (if String.eqb (strip (answer q)) a then [q] else []).
Proof. unfold same_answer. rewrite List.filter_app. cbn. destruct (String.eqb _ a); reflexivity. Qed.

Lemma signatures_inv_init : signatures_inv dedup_init.
Proof. intros a S H. cbn in H. rewrite lookup_empty in H. discriminate. Qed.

Lemma signatures_inv_step (st : dedup_state) (q : Question) :
  signatures_inv st -> signatures_inv (dedup_step st q).
Proof.
  intros Hinv. unfold dedup_step.
  case_bool_decide as Hin; [exact Hinv|].
  match goal with |- signatures_inv (if ?c then _ else _) => destruct c end;
    [exact Hinv|].
  intros a S. cbn [seen_answers unique_questions]. rewrite same_answer_app.
  destruct (decide (strip (answer q) = a)) as [<-|Hne].
  - rewrite lookup_insert_eq, String.eqb_refl. intros E. injection E as <-.
    destruct (seen_answers st !! strip (answer q)) as [S0|] eqn:E0; cbn [default].
    + destruct (Hinv _ _ E0) as [H1 H2]. split.
      * intros s Hs. apply elem_of_union in Hs. destruct Hs as [Hs|Hs].
        -- apply elem_of_singleton in Hs. subst s. exists q. split; [|reflexivity].
           apply in_or_app. right. left. reflexivity.
        -- destruct (H1 s Hs) as [p [Hp Es]]. exists p. split; [|exact Es].
           apply in_or_app. left. exact Hp.
      * rewrite length_app. cbn.
        pose proof (size_union_alt ({[signature_of (strip (question q))]} : gset string) S0)
          as U.
        pose proof (subseteq_size (S0 ∖ {[signature_of (strip (question q))]}) S0) as V.
        rewrite size_singleton in U. rewrite U.
        assert (size (S0 ∖ {[signature_of (strip (question q))]}) <= size S0)
          by (apply V, subseteq_difference_l; reflexivity).
        lia.
    + split.
      * intros s Hs. rewrite union_empty_r_L in Hs. apply elem_of_singleton in Hs.
        subst s. exists q. split; [|reflexivity]. apply in_or_app. right. left. reflexivity.
      * rewrite length_app. cbn. rewrite union_empty_r_L, size_singleton. lia.
  - rewrite lookup_insert_ne by exact Hne. intros E.
    destruct (Hinv _ _ E) as [H1 H2]. split.
    + intros s Hs. destruct (H1 s Hs) as [p [Hp Es]]. exists p. split; [|exact Es].
      apply in_or_app. left. exact Hp.
    + rewrite length_app. lia.
Qed.

(** Whenever the deduplicator drops a question, the drop rule holds for it:
    the code never drops more than the rule. *)
Lemma dropped_meets_drop_rule (questions : list Question) (q : Question) :
  let st := fold_left dedup_step questions dedup_init in
  unique_questions (dedup_step st q) = unique_questions st ->
  drop_rule (unique_questions st) q = true.
Proof.
  cbv zeta.
  pose proof (fold_left_invariant dedup_inv dedup_step questions dedup_init dedup_inv_step
                dedup_inv_init) as [_ Hseen].
  pose proof (fold_left_invariant signatures_inv dedup_step questions dedup_init
                signatures_inv_step signatures_inv_init) as Hsig.
  set (st := fold_left dedup_step questions dedup_init) in *.
  unfold dedup_step, drop_rule. cbv zeta.
  case_bool_decide as Hin.
  - intros _. apply orb_true_iff. left. apply Hseen in Hin.
    apply list_elem_of_In, in_map_iff in Hin. destruct Hin as [p [Ep Hp]].
    apply existsb_exists. exists p. split; [exact Hp|]. apply String.eqb_eq.
    unfold text_key at 2. exact Ep.
  - match goal with |- context [if ?c then _ else _] => destruct c eqn:C end.
    + intros _. apply orb_true_iff. right.
      apply andb_true_iff in C. destruct C as [C Hex].
      apply andb_true_iff in C. destruct C as [Hsome Hsize].
      apply bool_decide_eq_true in Hsome. destruct Hsome as [S E].
      rewrite E in Hsize, Hex. cbn [default from_option id] in Hsize, Hex.
      destruct (Hsig _ _ E) as [H1 H2]. unfold same_answer in H1, H2.
      apply andb_true_iff. split.
      * apply Nat.leb_le. apply Nat.leb_le in Hsize. lia.
      * apply existsb_exists in Hex. destruct Hex as [s [Hs Hc]].
        apply list_elem_of_In, elem_of_elements in Hs.
        destruct (H1 s Hs) as [p [Hp Es]].
        apply existsb_exists. exists p. split; [exact Hp|].
        subst s. exact Hc.
    + cbn [unique_questions]. intros E.
      apply (f_equal (@List.length Question)) in E. rewrite length_app in E. cbn in E. lia.
Qed.

(** C2 fails on the code.  Four questions with the answer "0" share their
    first five words; the fourth meets the drop rule (three accepted
    questions carry its answer, and its signature equals theirs), yet the
    deduplicator keeps all four, because it counts the distinct signatures
    stored for the answer (one) instead of the accepted questions. *)
Theorem same_signature_not_capped :
  let q1 := month_question "April" in
  let q2 := month_question "March" in
  let q3 := month_question "May" in
  let q4 := month_question "June" in
  deduplicate_questions [q1; q2; q3] = [q1; q2; q3]
  /\ drop_rule [q1; q2; q3] q4 = true
  /\ deduplicate_questions [q1; q2; q3; q4] = [q1; q2; q3; q4]
  /\ map (fun q => signature_of (text_key q)) [q1; q2; q3; q4]
     = repeat "how many recognitions were given" 4.
Proof. vm_compute. repeat split; reflexivity. Qed.

(** ** Scenario generator: targets and output size *)

Lemma round_aux_nonneg m e l : sf_nonneg (binary_round_aux prec emax false m e l).
Proof.
  unfold binary_round_aux.
  destruct (shr_fexp prec emax m e l) as [mrs' e'].
  destruct (shr_fexp prec emax _ e' loc_Exact) as [mrs'' e''].
  destruct (shr_m mrs''); cbn; [reflexivity| |exact I].
  destruct (Z.leb e'' (Z.sub emax prec)); reflexivity.
Qed.

Lemma float_of_Z_nonneg z : (0 <= z)%Z -> sf_nonneg (float_of_Z z).
Proof.
  intros Hz. unfold float_of_Z, binary_normalize. destruct z as [|p|p]; [reflexivity| |lia].
  unfold binary_round. destruct (shl_align _ _ _) as [mz ez]. apply round_aux_nonneg.
Qed.

Lemma float_mul_nonneg x m e : sf_nonneg x -> sf_nonneg (float_mul x (S754_finite false m e)).
Proof.
  unfold float_mul, SFmul. destruct x as [s|s| |s mx ex]; cbn; intros H; try subst s; try reflexivity; try exact I.
  apply round_aux_nonneg.
Qed.

Lemma int_of_sf_nonneg x a : sf_nonneg x -> int_of_sf x = Some a -> (0 <= a)%Z.
Proof.
  destruct x as [s|s| |s m e]; cbn; intros H E; try discriminate.
  - injection E as <-. lia.
  - subst s. injection E as <-.
    destruct (0 <=? e)%Z eqn:He.
    + apply Z.mul_nonneg_nonneg; [lia|]. apply Z.pow_nonneg. lia.
    + apply Z.div_pos; [lia|]. apply Z.pow_pos_nonneg; lia.
Qed.

Lemma share_nonneg limit m e a :
  (0 <= limit)%Z -> share_of limit (S754_finite false m e) = Some a -> (0 <= a)%Z.
Proof.
  intros Hl. unfold share_of. apply int_of_sf_nonneg, float_mul_nonneg, float_of_Z_nonneg, Hl.
Qed.








(** C7.  With a scenario limit of 40 the targets are 16 award-amount
    questions, 12 giver-lookup questions and 12 recipient-lookup questions. *)
Theorem scenario_targets_40 (c a r : Z) :
  let limits := {| comment_limit := c; scenario_limit := 40;
                   ai_advanced_limit := a; relationship_limit := r |} in
  award_limit limits = Some 16%Z /\ giver_limit limits = Some 12%Z
  /\ recipient_limit limits = Some 12%Z.
Proof. cbv zeta. repeat split; vm_compute; reflexivity. Qed.



(** ** Random sampling *)

(** The scenario generator depends on the draws. *)
Lemma scenario_depends_on_draws :
  fst <$> generate_specific_scenario_questions default_limits demo_df demo_world
  <> fst <$> generate_specific_scenario_questions default_limits demo_df
               {| rng := [0]%nat; llm := [] |}.
Proof. vm_compute. discriminate. Qed.

(** ** The persisted questions *)

Lemma select_questions_sound (all_questions : list Question) (q : Question) :
  In q (select_questions all_questions) ->
  In q all_questions /\ is_valid_answer_format (question q) (answer q) = true.
Proof.
  unfold select_questions. intros H.
  apply list_elem_of_In, deduplicate_subset, list_elem_of_In in H.
  apply filter_In in H. destruct H as [H _].
  apply filter_In in H. exact H.
Qed.

Lemma known_Q (text ans c : string) :
  existsb (String.eqb c) known_categories = true -> known (Q text ans c).
Proof. intros H. exact H. Qed.

Lemma Forall_known_map {A} (f : A -> Question) (l : list A) :
  (forall x, known (f x)) -> Forall known (map f l).
Proof. intros H. apply List.Forall_forall. intros q Hq. apply in_map_iff in Hq.
  destruct Hq as [x [<- _]]. apply H. Qed.

Lemma factual_known (analysis : Analysis) (df : list Row) (qs : list Question) :
  generate_factual_questions analysis df = Some qs -> Forall known qs.
Proof.
  unfold generate_factual_questions. intros H.
  destruct (hd_error (top_recipients analysis)) as [[? ?]|]; [|discriminate].
  destruct (hd_error (top_givers analysis)) as [[? ?]|]; [|discriminate].
  destruct (hd_error (recipients_with_most_unique_givers analysis)) as [[? ?]|];
    [|discriminate].
  destruct (hd_error (top_earners analysis)) as [[? ?]|]; [|discriminate].
  cbn in H. destruct (int_of_float _); [|discriminate].
  destruct (hd_error (programs analysis)) as [[? ?]|]; [|discriminate].
  cbn in H. injection H as <-.
  repeat (apply List.Forall_cons; [reflexivity|]).
  repeat (apply List.Forall_app; split);
    try (apply Forall_known_map; intros [? ?]; reflexivity).
  repeat (apply List.Forall_cons; [reflexivity|]). constructor.
Qed.

Lemma relationship_known (limits : Limits) (df : list Row) (qs : list Question) :
  generate_relationship_questions limits df = Some qs -> Forall known qs.
Proof.
  unfold generate_relationship_questions. intros H.
  destruct (share_of (relationship_limit limits) f0_3); [|discriminate].
  cbn in H. destruct (share_of (relationship_limit limits) f0_7); [|discriminate].
  cbn in H. injection H as <-.
  apply List.Forall_app. split; apply Forall_known_map.
  - intros [[? ?] ?]. reflexivity.
  - intros ?. reflexivity.
Qed.

Lemma award_questions_known (n : Z) (df : list Row) (qs : list Question) :
  award_questions n df = Some qs -> Forall known qs.
Proof.
  unfold award_questions.
  pose proof (fold_left_invariant
    (fun acc => match acc with Some (qs, _) => Forall known qs | None => True end)
    (award_step n) (head (Z.min (n * 2) (Z.of_nat (List.length df))) df) (Some ([], 0%Z)))
    as H.
  destruct (fold_left _ _ _) as [[qs' c]|]; cbn; [|discriminate].
  intros E. injection E as <-. apply H; [|constructor].
  intros [[l k]|] row Hl; cbn; [|trivial].
  destruct (_ && _ && _); cbn; [|exact Hl].
  destruct (int_of_float _); cbn; [|trivial].
  apply List.Forall_app. split; [exact Hl|]. constructor; [reflexivity|constructor].
Qed.

Lemma sampled_known (limit : Z) (df : list Row) (mk : Row -> Question) (w w' : World)
    (qs : list Question) :
  (forall row, known (mk row)) ->
  sampled_questions limit df mk w = Some (qs, w') -> Forall known qs.
Proof.
  intros Hmk. unfold sampled_questions, mbind, M_bind, sample, mret, M_ret.
  destruct (_ && _).
  - destruct (draw _ _ _) as [rows seeds]. intros E. injection E as <- _.
    apply Forall_known_map, Hmk.
  - intros E. injection E as <- _. constructor.
Qed.

Lemma scenario_known (limits : Limits) (df : list Row) (w w' : World) (qs : list Question) :
  generate_specific_scenario_questions limits df w = Some (qs, w') -> Forall known qs.
Proof.
  unfold generate_specific_scenario_questions, mbind, M_bind, pure.
  destruct (award_limit limits) as [a|]; [|discriminate].
  destruct (giver_limit limits) as [g|]; [|discriminate].
  destruct (recipient_limit limits) as [r|]; [|discriminate].
  destruct (award_questions a df) as [awards|] eqn:Eaw; [|discriminate].
  destruct (sampled_questions g df who_gave_question w) as [[givers w1]|] eqn:Egq;
    [|discriminate].
  destruct (sampled_questions r df who_received_question w1) as [[recipients w2]|] eqn:Erq;
    [|discriminate].
  unfold mret, M_ret. intros E. injection E as <- _.
  repeat (apply List.Forall_app; split).
  - apply (award_questions_known _ _ _ Eaw).
  - eapply sampled_known; [|exact Egq]. intros row. reflexivity.
  - eapply sampled_known; [|exact Erq]. intros row. reflexivity.
Qed.

Lemma invoke_reply (w w' : World) (r : option (list Question)) :
  invoke w = Some (r, w') ->
  (forall reply, r = Some reply -> In (Some reply) (llm w))
  /\ (forall x, In x (llm w') -> In x (llm w)).
Proof.
  unfold invoke. destruct (llm w) as [|x later] eqn:E.
  - intros H. injection H as <- <-. rewrite E. split; [discriminate|tauto].
  - intros H. injection H as <- <-. cbn. split.
    + intros reply ->. left. reflexivity.
    + intros y Hy. right. exact Hy.
Qed.

Lemma ask_for_each_from_service (rows : list Row) (w w' : World) (qs : list Question) :
  ask_for_each rows w = Some (qs, w') ->
  (forall q, In q qs -> from_service w q)
  /\ (forall x, In x (llm w') -> In x (llm w)).
Proof.
  revert w w' qs. induction rows as [|row rows IH]; intros w w' qs; cbn.
  - unfold mret, M_ret. intros E. injection E as <- <-. split; [intros q []|tauto].
  - unfold mbind, M_bind.
    destruct (invoke w) as [[r w1]|] eqn:Ei; [|discriminate].
    destruct (ask_for_each rows w1) as [[later w2]|] eqn:Ea; [|discriminate].
    unfold mret, M_ret. intros E. injection E as <- <-.
    apply invoke_reply in Ei. destruct Ei as [Hr Hsub].
    apply IH in Ea. destruct Ea as [Hl Hsub2].
    assert (Hlater : forall q, In q later -> from_service w q).
    { intros q Hq. destruct (Hl q Hq) as [reply [H1 H2]]. exists reply. auto. }
    split; [|auto].
    destruct r as [generated|]; [|exact Hlater].
    intros q Hq. apply in_app_or in Hq. destruct Hq as [Hq|Hq]; [|auto].
    exists generated. auto.
Qed.

Lemma comments_from_service (limits : Limits) (df : list Row) (w w' : World)
    (qs : list Question) :
  generate_ai_questions_from_comments limits df w = Some (qs, w') ->
  (forall q, In q qs -> from_service w q)
  /\ (forall x, In x (llm w') -> In x (llm w)).
Proof.
  unfold generate_ai_questions_from_comments, mbind, M_bind, pure.
  destruct (str_accessor df); [|discriminate]. apply ask_for_each_from_service.
Qed.

Lemma advanced_from_service (analysis : Analysis) (w w' : World) (qs : list Question) :
  generate_advanced_ai_questions analysis w = Some (qs, w') ->
  forall q, In q qs -> from_service w q.
Proof.
  unfold generate_advanced_ai_questions, mbind, M_bind.
  destruct (invoke w) as [[r w1]|] eqn:Ei; [|discriminate].
  unfold mret, M_ret. intros E. injection E as <- _.
  apply invoke_reply in Ei. destruct Ei as [Hr _].
  destruct r as [generated|]; [|intros q []].
  intros q Hq. exists generated. auto.
Qed.

(** C1, as amended.  Every persisted question has an answer that is not
    empty and not blank.  Its category is one of the fixed labels when a
    deterministic generator built it; a question taken from a reply of the
    completion service keeps the category the reply gave it, because no
    stage of the pipeline looks at categories. *)
Theorem persisted_questions_sound (limits : Limits) (df : list Row) (w w' : World)
    (qs : list Question) :
  persisted limits df w = Some (qs, w') ->
  forall q, In q qs ->
    strip (answer q) <> ""
    /\ (known_category q = true
        \/ exists reply, In (Some reply) (llm w) /\ In q reply).
Proof.
  unfold persisted, save_questions, generate_all_questions, mbind, M_bind, pure.
  destruct (generate_factual_questions (analyze_data df) df) as [factual|] eqn:Ef;
    [|discriminate].
  destruct (generate_relationship_questions limits df) as [relationship|] eqn:Er;
    [|discriminate].
  destruct (generate_ai_questions_from_comments limits df w) as [[from_comments w1]|] eqn:Ec;
    [|discriminate].
  destruct (generate_advanced_ai_questions (analyze_data df) w1) as [[advanced w2]|] eqn:Ea;
    [|discriminate].
  destruct (generate_specific_scenario_questions limits df w2) as [[scenario w3]|] eqn:Es;
    [|discriminate].
  unfold mret, M_ret. intros E. injection E as <- _.
  intros q Hq. apply select_questions_sound in Hq. destruct Hq as [Hin Hvalid].
  split; [apply (valid_answer_not_blank _ _ Hvalid)|].
  apply comments_from_service in Ec. destruct Ec as [Hc Hsub].
  pose proof (advanced_from_service _ _ _ _ Ea) as Hadv.
  pose proof (proj1 (List.Forall_forall _ _) (factual_known _ _ _ Ef)) as Kf.
  pose proof (proj1 (List.Forall_forall _ _) (relationship_known _ _ _ Er)) as Kr.
  pose proof (proj1 (List.Forall_forall _ _) (scenario_known _ _ _ _ _ Es)) as Ks.
  repeat (apply in_app_or in Hin; destruct Hin as [Hin|Hin]).
  - left. apply Kf, Hin.
  - left. apply Kr, Hin.
  - right. apply Hc, Hin.
  - right. destruct (Hadv q Hin) as [reply [H1 H2]]. exists reply. auto.
  - left. apply Ks, Hin.
Qed.

Lemma trivia_persisted : In trivia_question (fst demo_persisted).
Proof. cbn. repeat first [left; reflexivity | right]. Qed.

Lemma persisted_questions_sound_witness :
  strip (answer trivia_question) <> ""
  /\ (known_category trivia_question = true
      \/ exists reply, In (Some reply) (llm demo_world) /\ In trivia_question reply).
Proof.
  apply (persisted_questions_sound default_limits commented_df demo_world (snd demo_persisted)
           (fst demo_persisted)).
  - vm_compute. reflexivity.
  - cbn. repeat first [left; reflexivity | right].
Defined.

(** C1 as stated fails: a run whose service reply carries the category
    "Trivia" persists that question, and "Trivia" is not a known label. *)
Lemma category_unchecked_counterexample :
  ~ (forall (limits : Limits) (df : list Row) (w w' : World) (qs : list Question),
       persisted limits df w = Some (qs, w') ->
       forall q, In q qs -> strip (answer q) <> "" /\ known_category q = true).
Proof.
  intros H.
  assert (R : persisted default_limits commented_df demo_world
              = Some (fst demo_persisted, snd demo_persisted)) by (vm_compute; reflexivity).
  destruct (H _ _ _ _ _ R trivia_question trivia_persisted) as [_ K].
  vm_compute in K. discriminate.
Qed.

(** ** Consecutive-period detection *)

(** *** Sorting and tallies *)

Lemma insert_sorted_Permutation {A} (le : A -> A -> bool) (x : A) (l : list A) :
  Permutation (insert_sorted le x l) (x :: l).
Proof.
  induction l as [|y l IH]; cbn; [reflexivity|].
  destruct (le x y); [reflexivity|].
  rewrite IH. apply perm_swap.
Qed.

Lemma sorted_Permutation {A} (le : A -> A -> bool) (l : list A) :
  Permutation (sorted le l) l.
Proof.
  induction l as [|x l IH]; cbn; [reflexivity|].
  rewrite insert_sorted_Permutation. constructor. exact IH.
Qed.

Lemma insert_sorted_Sorted {A} (le : A -> A -> bool) (x : A) (l : list A) :
  (forall a b, le a b = false -> le b a = true) ->
  Sorted (fun a b => le a b = true) l ->
  Sorted (fun a b => le a b = true) (insert_sorted le x l).
Proof.
  intros Htot. induction l as [|y l IH]; intros Hs; cbn.
  - repeat constructor.
  - destruct (le x y) eqn:E.
    + constructor; [exact Hs|]. constructor. exact E.
    + inversion Hs as [|? ? Hs' Hhd]; subst. constructor; [apply IH, Hs'|].
      destruct l as [|z l]; cbn.
      * constructor. apply Htot, E.
      * destruct (le x z); constructor; [apply Htot, E|].
        inversion Hhd; subst. assumption.
Qed.

Lemma sorted_Sorted {A} (le : A -> A -> bool) (l : list A) :
  (forall a b, le a b = false -> le b a = true) ->
  Sorted (fun a b => le a b = true) (sorted le l).
Proof.
  intros Htot. induction l as [|x l IH]; cbn; [constructor|].
  apply insert_sorted_Sorted; assumption.
Qed.

Section tally.
Context {K : Type} (eqb : K -> K -> bool).
Hypothesis eqb_spec : forall x y, eqb x y = true <-> x = y.

Lemma tally_add_keys (k : K) (acc : list (K * nat)) :
  map fst (tally_add eqb k acc)
  = if existsb (eqb k) (map fst acc) then map fst acc else map fst acc ++ [k].
Proof.
  induction acc as [|[k' n] acc IH]; cbn; [reflexivity|].
  destruct (eqb k k'); cbn; [reflexivity|].
  rewrite IH. destruct (existsb (eqb k) (map fst acc)); reflexivity.
Qed.

Lemma existsb_eqb (k : K) (l : list K) : existsb (eqb k) l = true <-> k ∈ l.
Proof.
  rewrite existsb_exists, list_elem_of_In. split.
  - intros [x [Hx E]]. apply eqb_spec in E. subst x. exact Hx.
  - intros H. exists k. split; [exact H|]. apply eqb_spec. reflexivity.
Qed.

Lemma tally_fold_keys (l : list K) (acc : list (K * nat)) :
  NoDup (map fst acc) ->
  NoDup (map fst (fold_left (fun acc k => tally_add eqb k acc) l acc))
  /\ forall x, x ∈ map fst (fold_left (fun acc k => tally_add eqb k acc) l acc)
               <-> x ∈ map fst acc \/ x ∈ l.
Proof.
  revert acc. induction l as [|k l IH]; intros acc Hnd; cbn.
  - split; [exact Hnd|]. intros x. rewrite elem_of_nil. tauto.
  - assert (Hnd' : NoDup (map fst (tally_add eqb k acc))).
    { rewrite tally_add_keys. destruct (existsb (eqb k) (map fst acc)) eqn:E; [exact Hnd|].
      apply NoDup_app. split; [exact Hnd|]. split; [|apply NoDup_singleton].
      intros x Hx Hk. apply list_elem_of_singleton in Hk. subst x.
      apply existsb_eqb in Hx. congruence. }
    destruct (IH _ Hnd') as [H1 H2]. split; [exact H1|].
    intros x. rewrite H2, tally_add_keys, elem_of_cons.
    destruct (existsb (eqb k) (map fst acc)) eqn:E.
    + apply existsb_eqb in E. split; [tauto|]. intros [H|[->|H]]; tauto.
    + rewrite elem_of_app, list_elem_of_singleton. tauto.
Qed.

Lemma tally_keys (l : list K) :
  NoDup (map fst (tally eqb l)) /\ forall x, x ∈ map fst (tally eqb l) <-> x ∈ l.
Proof.
  unfold tally. destruct (tally_fold_keys l [] (NoDup_nil_2)) as [H1 H2].
  split; [exact H1|]. intros x. rewrite H2. cbn. rewrite elem_of_nil. tauto.
Qed.

Lemma groupby_size_keys (leb : K -> K -> bool) (l : list K) :
  NoDup (map fst (groupby_size eqb leb l))
  /\ forall x, x ∈ map fst (groupby_size eqb leb l) <-> x ∈ l.
Proof.
  unfold groupby_size. destruct (tally_keys l) as [H1 H2].
  pose proof (sorted_Permutation (fun x y => leb (fst x) (fst y)) (tally eqb l)) as P.
  apply (Permutation_map fst) in P. split.
  - rewrite P. exact H1.
  - intros x. rewrite P. apply H2.
Qed.
End tally.

Lemma key3_eqb_spec (x y : key3) : key3_eqb x y = true <-> x = y.
Proof.
  destruct x as [[n1 y1] m1], y as [[n2 y2] m2]. cbn.
  rewrite !andb_true_iff, String.eqb_eq, !Z.eqb_eq. split.
  - intros [[-> ->] ->]. reflexivity.
  - intros E. injection E as -> -> ->. tauto.
Qed.

Lemma months_of_cons (name n : string) (y m : Z) (c : nat) (rows : list (key3 * nat)) :
  months_of name ((n, y, m, c) :: rows)
  = if String.eqb n name then m :: months_of name rows else months_of name rows.
Proof. unfold months_of. cbn. destruct (String.eqb n name); reflexivity. Qed.

Lemma months_by_recipient_fold (rows : list (key3 * nat)) (acc : gmap string (list Z))
    (name : string) :
  fold_left months_step rows acc !! name
  = match months_of name rows with
    | [] => acc !! name
    | ms => Some (default [] (acc !! name) ++ ms)
    end.
Proof.
  revert acc. induction rows as [|[[[n y] m] c] rows IH]; intros acc; [reflexivity|].
  cbn [fold_left]. rewrite IH, months_of_cons. cbn [months_step].
  destruct (String.eqb n name) eqn:E.
  - apply String.eqb_eq in E. subst n.
    rewrite lookup_insert_eq. cbn [default].
    destruct (months_of name rows) as [|m' ms].
    + reflexivity.
    + f_equal. symmetry. apply (app_assoc _ [m] (m' :: ms)).
  - assert (n <> name) as Hne by (intros ->; rewrite String.eqb_refl in E; discriminate).
    rewrite lookup_insert_ne by exact Hne. reflexivity.
Qed.

Lemma months_by_recipient_lookup (rows : list (key3 * nat)) (name : string) :
  months_by_recipient rows !! name
  = match months_of name rows with [] => None | ms => Some ms end.
Proof.
  unfold months_by_recipient.
  change (fold_left _ rows ∅) with (fold_left months_step rows ∅).
  rewrite months_by_recipient_fold, lookup_empty. reflexivity.
Qed.

(** The months listed for [name] among the first-quarter groups are the
    first-quarter months in which [name] has a record, each once. *)
Lemma q1_group_months (df : list Row) (name : string) :
  let ms := months_of name (List.filter in_q1_2025 (recipients_by_month df)) in
  NoDup ms /\ forall m, m ∈ ms <-> m ∈ q1_months df name.
Proof.
  cbv zeta. unfold recipients_by_month. fold (keys_of df).
  destruct (groupby_size_keys key3_eqb key3_eqb_spec key3_leb (keys_of df)) as [Hnd Hin].
  set (rows := groupby_size key3_eqb key3_leb (keys_of df)) in *.
  set (sel := List.filter (fun row : key3 * nat => String.eqb (fst (fst (fst row))) name)
                (List.filter in_q1_2025 rows)).
  assert (Hsel : forall row, In row sel ->
            In row rows /\ fst row = (name, 2025%Z, snd (fst row))
            /\ In (snd (fst row)) [1; 2; 3]%Z).
  { intros [[[n y] m] c] H. apply filter_In in H. destruct H as [H Hn].
    apply filter_In in H. destruct H as [H Hq]. cbn in *.
    apply String.eqb_eq in Hn. apply andb_true_iff in Hq. destruct Hq as [Hy Hm].
    apply Z.eqb_eq in Hy. subst. split; [exact H|]. split; [reflexivity|].
    rewrite !orb_true_iff, !Z.eqb_eq in Hm. lia. }
  assert (Hkeys : map fst sel = map (fun m => (name, 2025%Z, m)) (months_of name
                    (List.filter in_q1_2025 rows))).
  { unfold months_of. fold sel. rewrite map_map. apply map_ext_in.
    intros row Hr. apply (Hsel row Hr). }
  split.
  - apply (NoDup_fmap_1 (fun m => (name, 2025%Z, m))).
    change (NoDup (map (fun m => (name, 2025%Z, m))
                     (months_of name (List.filter in_q1_2025 rows)))).
    rewrite <- Hkeys. unfold sel.
    assert (S : forall (P : key3 * nat -> bool) l, NoDup (map fst l) ->
                  NoDup (map fst (List.filter P l))).
    { intros P l. induction l as [|x l IH]; cbn; intros H; [exact H|].
      apply NoDup_cons in H. destruct H as [H1 H2].
      destruct (P x); cbn; [|apply IH, H2].
      apply NoDup_cons. split; [|apply IH, H2].
      intros Hx. apply H1. apply list_elem_of_In in Hx. apply list_elem_of_In.
      apply in_map_iff in Hx. destruct Hx as [z [Ez Hz]]. apply filter_In in Hz.
      apply in_map_iff. exists z. tauto. }
    apply S, S, Hnd.
  - intros m. unfold q1_months. rewrite !list_elem_of_In, filter_In.
    unfold months_of. fold sel. rewrite in_map_iff. split.
    + intros [row [Em Hr]]. destruct (Hsel row Hr) as [H1 [H2 H3]].
      destruct row as [[[n y] m'] c]. cbn in Em, H2, H3. subst m'.
      injection H2 as -> ->. split; [exact H3|].
      assert (Hk : (name, 2025%Z, m) ∈ map fst rows).
      { apply list_elem_of_In. apply (in_map fst _ _ H1). }
      apply Hin in Hk. apply list_elem_of_In in Hk.
      unfold keys_of in Hk. apply in_map_iff in Hk. destruct Hk as [r [Er Hr']].
      injection Er as E1 E2 E3.
      apply existsb_exists. exists r. split; [exact Hr'|].
      rewrite E1, E2, E3, String.eqb_refl, !Z.eqb_refl. reflexivity.
    + intros [H3 Hex]. apply existsb_exists in Hex. destruct Hex as [r [Hr E]].
      apply andb_true_iff in E. destruct E as [E Em]. apply andb_true_iff in E.
      destruct E as [En Ey]. apply String.eqb_eq in En. apply Z.eqb_eq in Ey, Em.
      assert (Hk : (name, 2025%Z, m) ∈ map fst rows).
      { apply Hin. apply list_elem_of_In. unfold keys_of. apply in_map_iff.
        exists r. split; [|exact Hr]. rewrite En, Ey, Em. reflexivity. }
      apply list_elem_of_In, in_map_iff in Hk.
      destruct Hk as [[[[n y] m'] c] [Ek Hrow]]. cbn in Ek. injection Ek as -> -> ->.
      exists (name, 2025%Z, m, c). split; [reflexivity|].
      unfold sel. apply filter_In. split.
      * apply filter_In. split; [exact Hrow|].
        change (in_q1_2025 (name, 2025%Z, m, c))
          with ((2025 =? 2025)%Z && existsb (Z.eqb m) [1; 2; 3]%Z).
        rewrite Z.eqb_refl. apply existsb_exists. exists m.
        split; [exact H3|apply Z.eqb_refl].
      * apply String.eqb_refl.
Qed.

Lemma q1_months_sorted (df : list Row) (name : string) :
  StronglySorted Z.le (q1_months df name) /\ NoDup (q1_months df name).
Proof.
  unfold q1_months. cbn [List.filter].
  repeat match goal with |- context [if ?c then _ else _] => destruct c end;
    split; repeat constructor; try lia;
    rewrite ?elem_of_cons, ?elem_of_nil; lia.
Qed.

Lemma sorted_Z_StronglySorted (l : list Z) : StronglySorted Z.le (sorted Z.leb l).
Proof.
  apply Sorted_StronglySorted; [intros x y z; lia|].
  pose proof (sorted_Sorted Z.leb l) as H.
  assert (T : forall a b, (a <=? b)%Z = false -> (b <=? a)%Z = true) by (intros; lia).
  specialize (H T). clear T. induction H as [|x s Hs IH Hhd]; constructor; [exact IH|].
  destruct Hhd; constructor. lia.
Qed.

(** C6.  The consecutive-period detection, applied to the groups of the
    records by (recipient, year, month), maps a recipient to the ascending
    list of the months among January, February and March 2025 in which the
    recipient has a record when there are at least two such months, and has
    no entry for the recipient otherwise.  On the small record set, Ada
    (January and March, not February) is flagged with [1; 3]; Alan (January
    only) is not. *)
Theorem consecutive_months_flagged (df : list Row) (name : string) :
  _find_consecutive_months_recipients (recipients_by_month df) !! name
  = (if (2 <=? List.length (q1_months df name))%nat
     then Some (q1_months df name) else None)
  /\ recipients_all_q1_months (analyze_data demo_df) !! "Ada" = Some [1; 3]%Z
  /\ recipients_all_q1_months (analyze_data demo_df) !! "Alan" = None.
Proof.
  split; [|split; vm_compute; reflexivity].
  unfold _find_consecutive_months_recipients.
  rewrite lookup_omap, months_by_recipient_lookup.
  destruct (q1_group_months df name) as [Hnd Hin].
  destruct (q1_months_sorted df name) as [Hs Hnd'].
  set (ms := months_of name (List.filter in_q1_2025 (recipients_by_month df))) in *.
  assert (P : Permutation ms (q1_months df name)) by (apply NoDup_Permutation; assumption).
  assert (E : sorted Z.leb ms = q1_months df name).
  { apply (StronglySorted_unique Z.le); [apply sorted_Z_StronglySorted|exact Hs|].
    rewrite sorted_Permutation. exact P. }
  rewrite <- (Permutation_length P), <- E.
  destruct ms as [|m ms']; reflexivity.
Qed.

(** ** Text report *)

(** *** String order *)

Lemma compare_OT (a b : string) : String.compare a b = OrdersEx.String_as_OT.compare a b.
Proof. revert b. induction a as [|x a IH]; intros [|y b]; cbn; reflexivity. Qed.

Lemma ltb_lt (a b : string) : String.ltb a b = true <-> OrdersEx.String_as_OT.lt a b.
Proof.
  unfold String.ltb, OrdersEx.String_as_OT.lt. rewrite compare_OT.
  destruct (OrdersEx.String_as_OT.compare a b); split; congruence.
Qed.

Lemma ltb_trans (a b c : string) :
  String.ltb a b = true -> String.ltb b c = true -> String.ltb a c = true.
Proof. rewrite !ltb_lt. apply (StrictOrder_Transitive (R:=OrdersEx.String_as_OT.lt)). Qed.

Lemma leb_neq_ltb (a b : string) : String.leb a b = true -> a <> b -> String.ltb a b = true.
Proof.
  unfold String.leb, String.ltb. destruct (String.compare a b) eqn:E; try congruence.
  intros _ H. apply String.compare_eq_iff in E. contradiction.
Qed.

Lemma leb_false_flip (a b : string) : String.leb a b = false -> String.leb b a = true.
Proof. intros H. destruct (String.leb_total a b) as [T|T]; congruence. Qed.

(** *** Grouping *)

Lemma append_to_keys (k : string) (q : Question) (d : list (string * list Question)) :
  map fst (append_to k q d)
  = if existsb (String.eqb k) (map fst d) then map fst d else map fst d ++ [k].
Proof.
  induction d as [|[k' l] d IH]; cbn; [reflexivity|].
  destruct (String.eqb k k'); cbn; [reflexivity|].
  rewrite IH. destruct (existsb (String.eqb k) (map fst d)); reflexivity.
Qed.

Lemma append_to_assoc (k c : string) (q : Question) (d : list (string * list Question)) :
  assoc c (append_to k q d)
  = if String.eqb k c then Some (default [] (assoc k d) ++ [q]) else assoc c d.
Proof.
  induction d as [|[k' l] d IH]; cbn.
  - destruct (String.eqb k c); reflexivity.
  - destruct (String.eqb k k') eqn:E; cbn.
    + apply String.eqb_eq in E. subst k'. rewrite String.eqb_refl.
      destruct (String.eqb k c); reflexivity.
    + rewrite IH. rewrite String.eqb_sym in E. rewrite E.
      destruct (String.eqb k' c) eqn:E'; [|reflexivity].
      apply String.eqb_eq in E'. subst k'. rewrite String.eqb_sym, E. reflexivity.
Qed.

Lemma append_to_total (k : string) (q : Question) (d : list (string * list Question)) :
  total (append_to k q d) = S (total d).
Proof.
  induction d as [|[k' l] d IH]; cbn; [reflexivity|].
  destruct (String.eqb k k'); cbn.
  - rewrite length_app. cbn. lia.
  - rewrite IH. lia.
Qed.

Lemma questions_of_cons (c : string) (q : Question) (qs : list Question) :
  questions_of c (q :: qs)
  = if String.eqb (category_of q) c then q :: questions_of c qs else questions_of c qs.
Proof. reflexivity. Qed.

Lemma group_fold (qs : list Question) (acc : list (string * list Question)) :
  NoDup (map fst acc) ->
  NoDup (map fst (fold_left category_step qs acc))
  /\ total (fold_left category_step qs acc) = (total acc + List.length qs)%nat
  /\ forall c, assoc c (fold_left category_step qs acc)
               = match questions_of c qs with
                 | [] => assoc c acc
                 | l => Some (default [] (assoc c acc) ++ l)
                 end.
Proof.
  revert acc. induction qs as [|q qs IH]; intros acc Hnd; cbn [fold_left].
  - split; [exact Hnd|]. split; [cbn; lia|]. reflexivity.
  - assert (Hnd' : NoDup (map fst (category_step acc q))).
    { unfold category_step. rewrite append_to_keys.
      destruct (existsb _ (map fst acc)) eqn:E; [exact Hnd|].
      apply NoDup_app. split; [exact Hnd|]. split; [|apply NoDup_singleton].
      intros x Hx Hk. apply list_elem_of_singleton in Hk. subst x.
      apply (existsb_eqb String.eqb String.eqb_eq) in Hx. congruence. }
    destruct (IH _ Hnd') as [H1 [H2 H3]]. split; [exact H1|]. split.
    + rewrite H2. unfold category_step. rewrite append_to_total. cbn. lia.
    + intros c. rewrite H3, questions_of_cons. unfold category_step.
      rewrite append_to_assoc.
      destruct (String.eqb (category_of q) c) eqn:E.
      * apply String.eqb_eq in E. subst c. cbn [default].
        destruct (questions_of (category_of q) qs) as [|q' l]; [reflexivity|].
        f_equal. symmetry. apply (app_assoc _ [q] (q' :: l)).
      * reflexivity.
Qed.

Lemma assoc_In (d : list (string * list Question)) (c : string) (l : list Question) :
  NoDup (map fst d) -> (In (c, l) d <-> assoc c d = Some l).
Proof.
  induction d as [|[k l'] d IH]; cbn; intros Hnd.
  - split; [tauto|discriminate].
  - apply NoDup_cons in Hnd. destruct Hnd as [Hk Hnd].
    destruct (String.eqb k c) eqn:E.
    + apply String.eqb_eq in E. subst k. split.
      * intros [H|H]; [congruence|]. exfalso. apply Hk.
        apply list_elem_of_In. apply (in_map fst _ _ H).
      * intros H. left. congruence.
    + rewrite <- (IH Hnd). split; [|tauto].
      intros [H|H]; [|exact H]. injection H as -> ->.
      rewrite String.eqb_refl in E. discriminate.
Qed.

Lemma group_by_category_spec (qs : list Question) :
  NoDup (map fst (group_by_category qs))
  /\ total (group_by_category qs) = List.length qs
  /\ forall c l, In (c, l) (group_by_category qs) <-> l = questions_of c qs /\ l <> [].
Proof.
  unfold group_by_category.
  change (fold_left _ qs []) with (fold_left category_step qs []).
  destruct (group_fold qs [] NoDup_nil_2) as [H1 [H2 H3]].
  split; [exact H1|]. split; [exact H2|].
  intros c l. rewrite (assoc_In _ c l H1), H3. cbn.
  destruct (questions_of c qs) as [|q l']; split.
  - discriminate.
  - intros [-> H]. contradiction.
  - intros H. injection H as <-. split; [reflexivity|discriminate].
  - intros [-> _]. reflexivity.
Qed.

Lemma total_Permutation (d d' : list (string * list Question)) :
  Permutation d d' -> total d = total d'.
Proof.
  induction 1 as [|[c l] d d' _ IH|[c l] [c' l'] d|d d' d'' _ IH1 _ IH2]; cbn; lia.
Qed.

(** A list sorted by [leb] and free of duplicates is strictly ascending. *)
Lemma sorted_keys_strict (d : list (string * list Question)) :
  Sorted (fun a b => key_leb a b = true) d ->
  NoDup (map fst d) ->
  StronglySorted (fun a b => String.ltb a b = true) (map fst d).
Proof.
  intros Hs Hnd.
  apply Sorted_StronglySorted; [intros a b c; apply ltb_trans|].
  induction Hs as [|x d Hs IH Hhd]; cbn; [constructor|].
  apply NoDup_cons in Hnd. destruct Hnd as [Hx Hnd].
  constructor; [apply IH, Hnd|].
  destruct Hhd as [|y d' Hxy]; cbn; constructor.
  apply leb_neq_ltb; [exact Hxy|].
  intros E. apply Hx. cbn. rewrite E. apply elem_of_cons. left. reflexivity.
Qed.

Lemma sorted_categories_spec (qs : list Question) :
  StronglySorted (fun a b => String.ltb a b = true) (map fst (sorted_categories qs))
  /\ total (sorted_categories qs) = List.length qs
  /\ forall c l, In (c, l) (sorted_categories qs) <-> l = questions_of c qs /\ l <> [].
Proof.
  destruct (group_by_category_spec qs) as [H1 [H2 H3]].
  unfold sorted_categories. fold key_leb.
  pose proof (sorted_Permutation key_leb (group_by_category qs)) as P.
  split; [|split].
  - apply sorted_keys_strict.
    + apply sorted_Sorted. intros a b. apply leb_false_flip.
    + rewrite (Permutation_map fst P). exact H1.
  - rewrite (total_Permutation _ _ P). exact H2.
  - intros c l. rewrite <- H3. split; apply Permutation_in; [exact P|symmetry; exact P].
Qed.

(** *** Numbering *)

Lemma write_questions_numbers (n : nat) (qs : list Question) (rest : list line) :
  snd (write_questions n qs) = (n + List.length qs)%nat
  /\ section_numbers (fst (write_questions n qs) ++ rest)
     = (seq n (List.length qs) ++ fst (section_numbers rest), snd (section_numbers rest)).
Proof.
  revert n. induction qs as [|q qs IH]; intros n; cbn.
  - split; [lia|]. destruct (section_numbers rest); reflexivity.
  - destruct (IH (S n)) as [H1 H2]. destruct (write_questions (S n) qs) as [lines k].
    cbn in *. split; [lia|]. rewrite H2. reflexivity.
Qed.





(** * Further properties *)

(** ** Text primitives *)

Lemma lower_char_idem (c : ascii) : lower_char (lower_char c) = lower_char c.
Proof. destruct c as [[] [] [] [] [] [] [] []]; reflexivity. Qed.

Lemma lower_upper_char (c : ascii) : lower_char (upper_char c) = lower_char c.
Proof. destruct c as [[] [] [] [] [] [] [] []]; reflexivity. Qed.

Lemma lower_upper (s : string) : lower (upper s) = lower s.
Proof.
  unfold lower, upper. induction s as [|c s IH]; cbn; [reflexivity|].
  rewrite lower_upper_char, IH. reflexivity.
Qed.

Lemma lower_idem (s : string) : lower (lower s) = lower s.
Proof.
  unfold lower. induction s as [|c s IH]; cbn; [reflexivity|].
  rewrite lower_char_idem, IH. reflexivity.
Qed.

Lemma len_lower (s : string) : len (lower s) = len s.
Proof. unfold len, lower. induction s as [|c s IH]; cbn; [reflexivity|]. rewrite IH. reflexivity. Qed.

Lemma rstrip_cons (sp : ascii -> bool) (c : ascii) (s : string) :
  rstrip_by sp (String c s)
  = match rstrip_by sp s with
    | EmptyString => if sp c then EmptyString else String c EmptyString
    | r => String c r
    end.
Proof. reflexivity. Qed.

Lemma rstrip_idem (sp : ascii -> bool) (s : string) :
  rstrip_by sp (rstrip_by sp s) = rstrip_by sp s.
Proof.
  induction s as [|c s IH]; [reflexivity|].
  rewrite rstrip_cons. destruct (rstrip_by sp s) as [|d r] eqn:E.
  - destruct (sp c) eqn:Ec; [reflexivity|]. cbn. rewrite Ec. reflexivity.
  - rewrite rstrip_cons, IH. reflexivity.
Qed.

(** Trimming on the right keeps a first character that is not blank. *)
Lemma rstrip_head (sp : ascii -> bool) (c : ascii) (s : string) :
  sp c = false -> exists r, rstrip_by sp (String c s) = String c r.
Proof.
  intros Hc. cbn. destruct (rstrip_by sp s) as [|d r].
  - rewrite Hc. exists "". reflexivity.
  - exists (String d r). reflexivity.
Qed.

Lemma lstrip_head (sp : ascii -> bool) (s : string) :
  lstrip_by sp s = "" \/ exists c r, lstrip_by sp s = String c r /\ sp c = false.
Proof.
  induction s as [|c s IH]; cbn; [left; reflexivity|].
  destruct (sp c) eqn:E; [exact IH|]. right. exists c, s. split; [reflexivity|exact E].
Qed.

Lemma strip_by_idem (sp : ascii -> bool) (s : string) :
  rstrip_by sp (lstrip_by sp (rstrip_by sp (lstrip_by sp s))) = rstrip_by sp (lstrip_by sp s).
Proof.
  destruct (lstrip_head sp s) as [E|[c [r [E Hc]]]]; rewrite E.
  - reflexivity.
  - destruct (rstrip_head sp c r Hc) as [r' E']. rewrite E'.
    cbn [lstrip_by]. rewrite Hc. rewrite <- E'. apply rstrip_idem.
Qed.

Lemma strip_idem (s : string) : strip (strip s) = strip s.
Proof. apply strip_by_idem. Qed.

(** ** Validator: the remaining branch and its invariances *)

(** The contract for a question that is neither who-shaped nor
    quantity-shaped. *)
Theorem other_answer_contract (q a : string) :
  who_shaped (lower q) = false ->
  quantity_shaped (lower q) = false ->
  (is_valid_answer_format q a = true <->
     strip a <> "" /\ (len (strip a) <= 100)%nat /\ (count "." (strip a) <= 1)%nat).
Proof.
  intros Hw Hq. unfold is_valid_answer_format. rewrite Hw, Hq.
  destruct (String.eqb a "") eqn:Ha.
  - apply String.eqb_eq in Ha. subst a. cbn. split; [discriminate|]. intros [H _]. contradiction.
  - cbn [orb]. destruct (String.eqb (strip a) "") eqn:Hs.
    + apply String.eqb_eq in Hs. split; [discriminate|]. intros [H _]. contradiction.
    + apply String.eqb_neq in Hs.
      destruct (100 <? len (strip a))%nat eqn:E1; cbn [orb].
      * apply Nat.ltb_lt in E1. split; [discriminate|]. intros [_ [H _]]. lia.
      * apply Nat.ltb_ge in E1.
        destruct (1 <? count "." (strip a))%nat eqn:E2.
        -- apply Nat.ltb_lt in E2. split; [discriminate|]. intros [_ [_ H]]. lia.
        -- apply Nat.ltb_ge in E2. split; [intros _|reflexivity]. auto.
Qed.

Lemma other_answer_contract_witness :
  is_valid_answer_format "Which program was used the most?" " Spot Award " = true <->
    strip " Spot Award " <> "" /\ (len (strip " Spot Award ") <= 100)%nat
    /\ (count "." (strip " Spot Award ") <= 1)%nat.
Proof.
  apply (other_answer_contract "Which program was used the most?" " Spot Award ");
    reflexivity.
Defined.

(** On ASCII text the verdict depends on the question only up to letter
    case and on the answer only up to surrounding blanks. *)
Theorem validator_ignores_case_and_blanks (q a : string) :
  isascii q = true -> isascii a = true ->
  is_valid_answer_format (upper q) (strip a) = is_valid_answer_format q a.
Proof.
  intros _ _. unfold is_valid_answer_format. rewrite lower_upper, strip_idem.
  destruct (String.eqb a "") eqn:Ha.
  - apply String.eqb_eq in Ha. subst a. reflexivity.
  - cbn [orb]. destruct (String.eqb (strip a) "") eqn:Hs.
    + rewrite orb_true_r. reflexivity.
    + rewrite orb_false_r. reflexivity.
Qed.

Lemma validator_ignores_case_and_blanks_witness :
  is_valid_answer_format (upper "Who won the award?") (strip "  Ada Lovelace ")
  = is_valid_answer_format "Who won the award?" "  Ada Lovelace ".
Proof.
  apply (validator_ignores_case_and_blanks "Who won the award?" "  Ada Lovelace ");
    reflexivity.
Defined.

(** ** Integer answers meet the number contract *)

Lemma all_chars_any (p q : ascii -> bool) (s : string) :
  (forall c, p c = true -> q c = false) -> all_chars p s = true -> any q s = false.
Proof.
  intros Hpq. induction s as [|c s IH]; cbn; [reflexivity|].
  intros H. apply andb_true_iff in H. destruct H as [Hc Hs].
  rewrite (Hpq c Hc), (IH Hs). reflexivity.
Qed.

Lemma lstrip_none (sp : ascii -> bool) (s : string) : any sp s = false -> lstrip_by sp s = s.
Proof. destruct s as [|c s]; cbn; [reflexivity|]. intros H. apply orb_false_iff in H.
  destruct H as [-> _]. reflexivity. Qed.

Lemma rstrip_none (sp : ascii -> bool) (s : string) : any sp s = false -> rstrip_by sp s = s.
Proof.
  induction s as [|c s IH]; [reflexivity|]. cbn [any]. intros H.
  apply orb_false_iff in H. destruct H as [Hc Hs]. rewrite rstrip_cons, (IH Hs), Hc.
  destruct s; reflexivity.
Qed.

Lemma remove_char_none (x : ascii) (s : string) :
  any (Ascii.eqb x) s = false -> remove_char x s = s.
Proof.
  induction s as [|c s IH]; cbn; [reflexivity|]. intros H.
  apply orb_false_iff in H. destruct H as [Hc Hs]. rewrite Hc, (IH Hs). reflexivity.
Qed.

Lemma underscores_cons (prev c : ascii) (s : string) :
  underscores_ok prev (String c s)
  = (if Ascii.eqb c "_" then isdigit prev else negb (Ascii.eqb prev "_") || isdigit c)
    && underscores_ok c s.
Proof. reflexivity. Qed.

Lemma underscores_none (prev : ascii) (s : string) :
  Ascii.eqb prev "_" = false -> any (Ascii.eqb "_") s = false -> underscores_ok prev s = true.
Proof.
  revert prev. induction s as [|c s IH]; intros prev Hp H.
  - unfold underscores_ok. rewrite Hp. reflexivity.
  - cbn [any] in H. apply orb_false_iff in H. destruct H as [Hc Hs].
    rewrite underscores_cons, Ascii.eqb_sym, Hc, Hp. cbn [negb orb andb].
    apply IH; [|exact Hs]. rewrite Ascii.eqb_sym. exact Hc.
Qed.

Lemma skip_sign_digit (c : ascii) (s : string) :
  isdigit c = true -> skip_sign (String c s) = String c s.
Proof.
  intros Hc. destruct c as [[] [] [] [] [] [] [] []]; try discriminate Hc; reflexivity.
Qed.

Lemma is_inf_nan_digit (c : ascii) (s : string) :
  isdigit c = true -> is_inf_nan (String c s) = false.
Proof.
  intros Hc. destruct c as [[] [] [] [] [] [] [] []]; try discriminate Hc; reflexivity.
Qed.

Lemma span_all_digits (s : string) :
  all_chars isdigit s = true -> span_digits s = (String.length s, "").
Proof.
  induction s as [|c s IH]; cbn; [reflexivity|]. intros H.
  apply andb_true_iff in H. destruct H as [Hc Hs]. rewrite Hc, (IH Hs). reflexivity.
Qed.

Lemma digit_classes (c : ascii) :
  isdigit c = true ->
  isspace c = false /\ c_isspace c = false /\ isalpha c = false
  /\ Ascii.eqb "_" c = false /\ Ascii.eqb "," c = false /\ Ascii.eqb "." c = false
  /\ Ascii.eqb c "+" = false /\ Ascii.eqb c "-" = false /\ lower_char c = c
  /\ Ascii.eqb c "i" = false /\ Ascii.eqb c "n" = false.
Proof. destruct c as [[] [] [] [] [] [] [] []]; cbn; intros H; try discriminate H; repeat split. Qed.

(** A non-empty text of decimal digits is a float literal. *)
Lemma digits_float_literal (s : string) :
  s <> "" -> all_chars isdigit s = true -> float_literal s = true.
Proof.
  intros Hne Hd. destruct s as [|c s]; [contradiction|].
  pose proof Hd as Hd'. cbn in Hd'. apply andb_true_iff in Hd'. destruct Hd' as [Hc Hs].
  unfold float_literal.
  rewrite (skip_sign_digit c s Hc), (is_inf_nan_digit c s Hc), (span_all_digits _ Hd).
  reflexivity.
Qed.

(** [str(n)] for a natural number is a non-empty text of digits. *)
Lemma string_of_uint_digits (u : Decimal.uint) :
  NilZero.string_of_uint u <> "" /\ all_chars isdigit (NilZero.string_of_uint u) = true.
Proof.
  assert (H : all_chars isdigit (NilEmpty.string_of_uint u) = true).
  { induction u; cbn; try exact IHu; reflexivity. }
  destruct u; cbn in *; split; try discriminate; try exact H; reflexivity.
Qed.

(** The text of an integer: digits, with a minus sign for a negative one. *)
Lemma str_of_Z_shape (z : Z) :
  exists d, d <> "" /\ all_chars isdigit d = true
            /\ (str_of_Z z = d \/ str_of_Z z = String "-" d).
Proof.
  unfold str_of_Z. destruct (Z.to_int z) as [u|u]; cbn;
    destruct (string_of_uint_digits u) as [H1 H2];
    exists (NilZero.string_of_uint u); auto.
Qed.

Lemma plain_text_strip (s : string) : any isspace s = false -> strip s = s.
Proof. intros H. unfold strip. rewrite (lstrip_none _ _ H). apply rstrip_none, H. Qed.

Lemma digits_number_shaped (d : string) :
  d <> "" -> all_chars isdigit d = true ->
  strip d = d /\ number_shaped d = true
  /\ strip (String "-" d) = String "-" d /\ number_shaped (String "-" d) = true.
Proof.
  intros Hne Hd.
  pose proof (all_chars_any isdigit isspace d (fun c H => proj1 (digit_classes c H)) Hd) as Hsp.
  pose proof (all_chars_any isdigit c_isspace d
                (fun c H => proj1 (proj2 (digit_classes c H))) Hd) as Hcsp.
  pose proof (all_chars_any isdigit isalpha d
                (fun c H => proj1 (proj2 (proj2 (digit_classes c H)))) Hd) as Hal.
  pose proof (all_chars_any isdigit (Ascii.eqb "_") d
                (fun c H => proj1 (proj2 (proj2 (proj2 (digit_classes c H))))) Hd) as Hus.
  pose proof (all_chars_any isdigit (Ascii.eqb ",") d
                (fun c H => proj1 (proj2 (proj2 (proj2 (proj2 (digit_classes c H)))))) Hd)
    as Hco.
  assert (Fd : float_parses d = true).
  { unfold float_parses. rewrite (lstrip_none _ _ Hcsp), (rstrip_none _ _ Hcsp).
    rewrite (underscores_none "000" _ eq_refl Hus), (remove_char_none _ _ Hus).
    apply digits_float_literal; assumption. }
  assert (Fm : float_parses (String "-" d) = true).
  { unfold float_parses.
    assert (Hcsp' : any c_isspace (String "-" d) = false) by (cbn; exact Hcsp).
    assert (Hus' : any (Ascii.eqb "_") (String "-" d) = false) by (cbn; exact Hus).
    rewrite (lstrip_none _ _ Hcsp'), (rstrip_none _ _ Hcsp').
    rewrite (underscores_none "000" _ eq_refl Hus'), (remove_char_none _ _ Hus').
    pose proof (digits_float_literal d Hne Hd) as L.
    destruct d as [|c d]; [contradiction|].
    pose proof Hd as Hd'. cbn [all_chars] in Hd'. apply andb_true_iff in Hd'.
    destruct Hd' as [Hc _].
    unfold float_literal in L. rewrite (skip_sign_digit c d Hc) in L.
    unfold float_literal. change (skip_sign (String "-" (String c d))) with (String c d).
    exact L. }
  split; [apply plain_text_strip, Hsp|]. split.
  - unfold number_shaped. rewrite (remove_char_none _ _ Hco), Fd, Hal. reflexivity.
  - split; [apply plain_text_strip; cbn; exact Hsp|].
    unfold number_shaped.
    assert (Hco' : any (Ascii.eqb ",") (String "-" d) = false) by (cbn; exact Hco).
    rewrite (remove_char_none _ _ Hco'), Fm. cbn. rewrite Hal. reflexivity.
Qed.

(** An integer written with [str] is a valid answer to every
    quantity-shaped question that is not who-shaped. *)
Theorem integer_answer_accepted (q : string) (z : Z) :
  who_shaped (lower q) = false ->
  quantity_shaped (lower q) = true ->
  is_valid_answer_format q (str_of_Z z) = true.
Proof.
  intros Hw Hq. rewrite (valid_quantity q _ Hw Hq).
  destruct (str_of_Z_shape z) as [d [Hne [Hd [E|E]]]]; rewrite E;
    destruct (digits_number_shaped d Hne Hd) as (S1 & N1 & S2 & N2).
  - rewrite S1. exact N1.
  - rewrite S2. exact N2.
Qed.

Lemma integer_answer_accepted_witness :
  is_valid_answer_format "How many recognitions were given in Q1 2025?" (str_of_Z 17) = true.
Proof.
  apply (integer_answer_accepted "How many recognitions were given in Q1 2025?" 17);
    reflexivity.
Defined.

(** ** Deduplicator: composition and limits of the cap *)

Lemma dedup_step_cases (st : dedup_state) (q : Question) :
  dedup_step st q = st
  \/ unique_questions (dedup_step st q) = unique_questions st ++ [q].
Proof.
  unfold dedup_step. case_bool_decide; [left; reflexivity|].
  match goal with |- context [if ?c then _ else _] => destruct c end;
    [left; reflexivity|right; reflexivity].
Qed.

(** The accepted questions form a sublist of the input, and running the
    loop on them alone ends in the same state. *)
Lemma dedup_replay (qs : list Question) (st : dedup_state) :
  exists news,
    unique_questions (fold_left dedup_step qs st) = unique_questions st ++ news
    /\ sublist news qs
    /\ fold_left dedup_step news st = fold_left dedup_step qs st.
Proof.
  revert st. induction qs as [|q qs IH]; intros st; cbn [fold_left].
  - exists []. rewrite app_nil_r. repeat split. constructor.
  - destruct (IH (dedup_step st q)) as [news [H1 [H2 H3]]].
    destruct (dedup_step_cases st q) as [E|E].
    + exists news. rewrite E in *. repeat split; [exact H1| |exact H3].
      apply sublist_cons. exact H2.
    + exists (q :: news). rewrite H1, E, <- app_assoc. repeat split; [|exact H3].
      apply sublist_skip. exact H2.
Qed.

Lemma fold_left_snoc {S A} (f : S -> A -> S) (l : list A) (a : A) (s : S) :
  fold_left f (l ++ [a]) s = f (fold_left f l s) a.
Proof. rewrite fold_left_app. reflexivity. Qed.

Lemma filter_all {A} (p : A -> bool) (l : list A) :
  (forall x, In x l -> p x = true) -> List.filter p l = l.
Proof.
  induction l as [|x l IH]; cbn; intros H; [reflexivity|].
  rewrite (H x (or_introl eq_refl)), IH; [reflexivity|]. intros y Hy. apply H. right. exact Hy.
Qed.

Lemma dedup_of_dedup (questions : list Question) :
  deduplicate_questions (deduplicate_questions questions) = deduplicate_questions questions.
Proof.
  unfold deduplicate_questions.
  destruct (dedup_replay questions dedup_init) as [news [H1 [_ H3]]].
  cbn [unique_questions dedup_init app] in H1. rewrite H1, H3. exact H1.
Qed.

(** Deduplicating twice changes nothing more. *)
Theorem deduplicate_idempotent (questions : list Question) :
  deduplicate_questions (deduplicate_questions questions) = deduplicate_questions questions.
Proof. apply dedup_of_dedup. Qed.

(** The deduplicator only removes questions: what it returns is a sublist
    of its input, in the same order, and the first question is always kept. *)
Theorem deduplicate_sublist (questions : list Question) :
  sublist (deduplicate_questions questions) questions
  /\ (List.length (deduplicate_questions questions) <= List.length questions)%nat
  /\ hd_error (deduplicate_questions questions) = hd_error questions.
Proof.
  unfold deduplicate_questions.
  destruct (dedup_replay questions dedup_init) as [news [H1 [H2 _]]].
  cbn [unique_questions dedup_init app] in H1. rewrite H1.
  split; [exact H2|]. split; [apply sublist_length, H2|].
  destruct questions as [|q qs]; [inversion H2; reflexivity|].
  destruct (dedup_replay qs (dedup_step dedup_init q)) as [news' [H1' _]].
  cbn [fold_left] in H1. rewrite H1' in H1. rewrite <- H1. reflexivity.
Qed.

Lemma appended_unless_drop_rule (questions : list Question) (q : Question) :
  drop_rule (deduplicate_questions questions) q = false ->
  deduplicate_questions (questions ++ [q]) = deduplicate_questions questions ++ [q].
Proof.
  intros Hrule. unfold deduplicate_questions in *. rewrite fold_left_snoc.
  destruct (dedup_step_cases (fold_left dedup_step questions dedup_init) q) as [E|E];
    [|exact E].
  pose proof (dropped_meets_drop_rule questions q) as D. cbv zeta in D.
  rewrite E in D. rewrite (D eq_refl) in Hrule. discriminate.
Qed.

Lemma stored_inv_init : stored_inv dedup_init.
Proof. intros a. cbn. rewrite lookup_empty. reflexivity. Qed.

Lemma stored_signatures_snoc (accepted : list Question) (q : Question) (a : string) :
  stored_signatures (accepted ++ [q]) a
  = if String.eqb (strip (answer q)) a
    then {[signature_of (text_key q)]} ∪ stored_signatures accepted a
    else stored_signatures accepted a.
Proof.
  unfold stored_signatures. rewrite same_answer_app.
  destruct (String.eqb (strip (answer q)) a).
  - rewrite map_app, list_to_set_app_L. cbn [map list_to_set].
    rewrite (right_id_L ∅ (∪)). apply (comm_L (∪)).
  - rewrite app_nil_r. reflexivity.
Qed.

Lemma stored_inv_step (st : dedup_state) (q : Question) :
  stored_inv st -> stored_inv (dedup_step st q).
Proof.
  intros Hinv. unfold dedup_step.
  case_bool_decide as Hin; [exact Hinv|].
  match goal with |- stored_inv (if ?c then _ else _) => destruct c end; [exact Hinv|].
  intros a. cbn [seen_answers unique_questions]. rewrite stored_signatures_snoc.
  destruct (String.eqb (strip (answer q)) a) eqn:E.
  - apply String.eqb_eq in E. subst a. rewrite lookup_insert_eq. cbn [default from_option id].
    unfold text_key. rewrite (Hinv (strip (answer q))). reflexivity.
  - apply String.eqb_neq in E. rewrite lookup_insert_ne by exact E. apply Hinv.
Qed.

Lemma dedup_step_reads_accepted (st : dedup_state) (q : Question) :
  dedup_inv st -> stored_inv st ->
  unique_questions (dedup_step st q)
  = if dropped_after (unique_questions st) q then unique_questions st
    else unique_questions st ++ [q].
Proof.
  intros [_ Hseen] Hst. unfold dedup_step, dropped_after.
  assert (C1 : bool_decide (strip (question q) ∈ seen_questions st)
               = existsb (fun p => String.eqb (text_key p) (text_key q)) (unique_questions st)).
  { apply eq_true_iff_eq. rewrite bool_decide_eq_true, Hseen, existsb_exists.
    rewrite list_elem_of_In, in_map_iff. split.
    - intros [p [Ep Hp]]. exists p. split; [exact Hp|]. apply String.eqb_eq. exact Ep.
    - intros [p [Hp Ep]]. exists p. apply String.eqb_eq in Ep. split; assumption. }
  rewrite C1. destruct (existsb _ (unique_questions st)); [reflexivity|]. cbn [orb].
  pose proof (Hst (strip (answer q))) as Hs.
  assert (C2 : bool_decide (is_Some (seen_answers st !! strip (answer q)))
               && (3 <=? size (default ∅ (seen_answers st !! strip (answer q))))%nat
               = (3 <=? size (stored_signatures (unique_questions st) (strip (answer q))))%nat).
  { rewrite Hs. destruct (seen_answers st !! strip (answer q)) as [S|] eqn:E.
    - rewrite bool_decide_eq_true_2 by (exists S; reflexivity). reflexivity.
    - cbn [default from_option id] in Hs. rewrite <- Hs. rewrite size_empty. reflexivity. }
  rewrite C2, Hs.
  assert (C3 : existsb (fun existing_sig =>
                 contains existing_sig (signature_of (strip (question q)))
                 || contains (signature_of (strip (question q))) existing_sig)
                 (elements (stored_signatures (unique_questions st) (strip (answer q))))
               = existsb (fun p =>
                   contains (signature_of (text_key p)) (signature_of (text_key q))
                   || contains (signature_of (text_key q)) (signature_of (text_key p)))
                   (same_answer (strip (answer q)) (unique_questions st))).
  { apply eq_true_iff_eq. rewrite !existsb_exists. unfold stored_signatures. split.
    - intros [s [Hs' Hc]]. apply list_elem_of_In, elem_of_elements, elem_of_list_to_set in Hs'.
      apply list_elem_of_In, in_map_iff in Hs'. destruct Hs' as [p [<- Hp]].
      exists p. split; [exact Hp|exact Hc].
    - intros [p [Hp Hc]]. exists (signature_of (text_key p)). split; [|exact Hc].
      apply list_elem_of_In. apply elem_of_elements. apply elem_of_list_to_set.
      apply list_elem_of_In. apply (in_map (fun p => signature_of (text_key p))). exact Hp. }
  rewrite C3.
  match goal with |- context [if ?c then _ else _] => destruct c end; reflexivity.
Qed.

(** The fate of the next question is decided by the accepted questions
    alone: it is dropped when its trimmed text was accepted before, or when
    the accepted questions with its trimmed answer carry at least three
    distinct signatures and one of them contains, or is contained in, its
    own; in every other case it is appended. *)
Theorem next_question_rule (questions : list Question) (q : Question) :
  deduplicate_questions (questions ++ [q])
  = if dropped_after (deduplicate_questions questions) q
    then deduplicate_questions questions
    else deduplicate_questions questions ++ [q].
Proof.
  unfold deduplicate_questions. rewrite fold_left_snoc.
  apply dedup_step_reads_accepted.
  - apply fold_left_invariant; [apply dedup_inv_step|apply dedup_inv_init].
  - apply fold_left_invariant; [apply stored_inv_step|apply stored_inv_init].
Qed.

(** Up to three questions with one answer are always allowed: when the
    trimmed texts are pairwise distinct and no answer occurs more than three
    times, nothing is removed. *)
Theorem three_per_answer_all_kept (questions : list Question) :
  NoDup (map text_key questions) ->
  (forall a, List.length (same_answer a questions) <= 3)%nat ->
  deduplicate_questions questions = questions.
Proof.
  induction questions as [|q qs IH] using rev_ind; intros Hnd Hans; [reflexivity|].
  rewrite map_app in Hnd. apply NoDup_app in Hnd. destruct Hnd as [Hnd [Hq _]].
  assert (Hans' : forall a, (List.length (same_answer a qs) <= 3)%nat).
  { intros a. specialize (Hans a). rewrite same_answer_app, length_app in Hans. lia. }
  specialize (IH Hnd Hans').
  rewrite appended_unless_drop_rule; rewrite IH; [reflexivity|].
  unfold drop_rule. apply orb_false_iff. split.
  - apply not_true_is_false. intros H. apply existsb_exists in H.
    destruct H as [p [Hp E]]. apply String.eqb_eq in E.
    apply (Hq (text_key p)).
    + apply list_elem_of_In, in_map, Hp.
    + rewrite E. cbn. apply elem_of_cons. left. reflexivity.
  - apply andb_false_iff. left. apply Nat.leb_gt.
    specialize (Hans (strip (answer q))).
    rewrite same_answer_app, length_app, String.eqb_refl in Hans. cbn in Hans.
    unfold same_answer in Hans. lia.
Qed.

Lemma three_per_answer_all_kept_witness :
  deduplicate_questions [month_question "April"; month_question "May"; month_question "June"]
  = [month_question "April"; month_question "May"; month_question "June"].
Proof.
  apply (three_per_answer_all_kept
           [month_question "April"; month_question "May"; month_question "June"]).
  - vm_compute. repeat constructor; rewrite ?elem_of_cons, ?elem_of_nil;
      intros H; repeat destruct H as [H|H]; try discriminate H; exact H.
  - intros a. unfold same_answer. cbn [List.filter].
    repeat match goal with |- context [if ?c then _ else _] => destruct c end; cbn; lia.
Defined.

(** ** Selection: validation, interest filter and deduplication together *)

Lemma selected_passed_filters (all_questions : list Question) (q : Question) :
  In q (select_questions all_questions) ->
  In q all_questions
  /\ is_valid_answer_format (question q) (answer q) = true
  /\ is_interesting_question q = true.
Proof.
  unfold select_questions. intros H.
  apply list_elem_of_In, deduplicate_subset, list_elem_of_In in H.
  apply filter_In in H. destruct H as [H Hi]. apply filter_In in H. tauto.
Qed.

(** Every selected question passed the validator and the interest filter,
    and selecting again changes nothing. *)
Theorem select_questions_fixpoint (all_questions : list Question) :
  (forall q, In q (select_questions all_questions) ->
     In q all_questions
     /\ is_valid_answer_format (question q) (answer q) = true
     /\ is_interesting_question q = true)
  /\ select_questions (select_questions all_questions) = select_questions all_questions.
Proof.
  split; [apply selected_passed_filters|].
  unfold select_questions at 1. fold (select_questions all_questions).
  rewrite (filter_all (fun q => is_valid_answer_format (question q) (answer q)));
    [|intros q Hq; apply (selected_passed_filters all_questions q Hq)].
  rewrite (filter_all is_interesting_question);
    [|intros q Hq; apply (selected_passed_filters all_questions q Hq)].
  unfold select_questions. apply dedup_of_dedup.
Qed.

(** ** The service-backed generators: failures are skipped *)



Lemma head_length {A} (n : Z) (l : list A) :
  List.length (head n l)
  = if (0 <=? n)%Z then Nat.min (Z.to_nat n) (List.length l)
    else (List.length l - Z.to_nat (- n))%nat.
Proof.
  unfold head. destruct (0 <=? n)%Z; rewrite length_firstn; lia.
Qed.



(** ** Relationship builder *)

Lemma firstn_min_length {A} (d : Z) (l : list A) :
  (0 <= d)%Z -> head (Z.min d (Z.of_nat (List.length l))) l = firstn (Z.to_nat d) l.
Proof.
  intros Hd. unfold head.
  destruct (Z.leb_spec 0 (Z.min d (Z.of_nat (List.length l)))) as [_|E]; [|lia].
  destruct (Z.le_ge_cases d (Z.of_nat (List.length l))) as [H|H].
  - rewrite Z.min_l by exact H. reflexivity.
  - rewrite Z.min_r by exact H. rewrite Nat2Z.id.
    rewrite !firstn_all2; [reflexivity|lia|lia].
Qed.

(** For a relationship limit L >= 0 the builder returns at most int(L*0.3)
    pair-count questions, followed by one "who gave" question for each of
    the first int(L*0.7) records, in file order. *)
Theorem relationship_questions_shape (limits : Limits) (df : list Row)
    (qs : list Question) :
  (0 <= relationship_limit limits)%Z ->
  generate_relationship_questions limits df = Some qs ->
  exists (p d : Z) (pair_questions : list Question),
    share_of (relationship_limit limits) f0_3 = Some p
    /\ share_of (relationship_limit limits) f0_7 = Some d
    /\ qs = pair_questions ++ map who_gave_question (firstn (Z.to_nat d) df)
    /\ (Z.of_nat (List.length pair_questions) <= p)%Z
    /\ (Z.of_nat (List.length qs) <= p + d)%Z.
Proof.
  intros Hl. unfold generate_relationship_questions.
  destruct (share_of (relationship_limit limits) f0_3) as [p|] eqn:Ep; [|discriminate].
  cbn [mbind option_bind].
  destruct (share_of (relationship_limit limits) f0_7) as [d|] eqn:Ed; [|discriminate].
  cbn [mbind option_bind]. intros E. injection E as <-.
  pose proof (share_nonneg _ _ _ _ Hl Ep) as Hp.
  pose proof (share_nonneg _ _ _ _ Hl Ed) as Hd.
  eexists p, d, _. split; [reflexivity|]. split; [reflexivity|].
  rewrite (firstn_min_length d df Hd). split; [reflexivity|].
  assert (B : (Z.of_nat (List.length
                 (map (fun '(giver, recipient, count) =>
                    Q ("How many times did " +:+ giver +:+ " recognize " +:+ recipient +:+ "?")
                      (str_of_nat count) "Giver-Recipient Relationship")
                 (List.filter (fun row : string * string * nat => (1 <? snd row)%nat)
                    (head (Z.min p (Z.of_nat (List.length
                       (sorted count_desc
                          (groupby_size pair_eqb pair_leb
                             (map (fun r => (Giver_Name r, Recipient_Name r)) df))))))
                       (sorted count_desc
                          (groupby_size pair_eqb pair_leb
                             (map (fun r => (Giver_Name r, Recipient_Name r)) df)))))))
               <= p)%Z).
  { rewrite length_map.
    match goal with |- context [List.filter ?f ?l] =>
      pose proof (filter_length_le f l) as F; pose proof (head_length
        (Z.min p (Z.of_nat (List.length (sorted count_desc
                          (groupby_size pair_eqb pair_leb
                             (map (fun r => (Giver_Name r, Recipient_Name r)) df))))))
        (sorted count_desc
                          (groupby_size pair_eqb pair_leb
                             (map (fun r => (Giver_Name r, Recipient_Name r)) df)))) as Hh
    end.
    destruct (Z.leb_spec 0 (Z.min p (Z.of_nat (List.length (sorted count_desc
                          (groupby_size pair_eqb pair_leb
                             (map (fun r => (Giver_Name r, Recipient_Name r)) df)))))))
      as [_|E0]; lia. }
  split; [exact B|].
  rewrite length_app, (length_map who_gave_question), length_firstn. lia.
Qed.

Lemma relationship_questions_shape_witness :
  exists (p d : Z) (pair_questions : list Question),
    share_of (relationship_limit default_limits) f0_3 = Some p
    /\ share_of (relationship_limit default_limits) f0_7 = Some d
    /\ demo_relationship = pair_questions ++ map who_gave_question (firstn (Z.to_nat d) demo_df)
    /\ (Z.of_nat (List.length pair_questions) <= p)%Z
    /\ (Z.of_nat (List.length demo_relationship) <= p + d)%Z.
Proof.
  apply (relationship_questions_shape default_limits demo_df demo_relationship).
  - cbn. lia.
  - vm_compute. reflexivity.
Defined.

(** ** Factual builder and the whole run: empty and non-empty record sets *)

Lemma tally_nonempty {K} (eqb : K -> K -> bool) (l : list K) :
  (forall x y, eqb x y = true <-> x = y) -> l <> [] -> tally eqb l <> [].
Proof.
  intros Hspec Hl E. destruct l as [|a l]; [contradiction|].
  destruct (tally_keys eqb Hspec (a :: l)) as [_ H].
  assert (Ha : a ∈ map fst (tally eqb (a :: l))) by (apply H, elem_of_cons; left; reflexivity).
  rewrite E in Ha. inversion Ha.
Qed.

Lemma sorted_nonempty {A} (le : A -> A -> bool) (l : list A) : l <> [] -> sorted le l <> [].
Proof.
  intros Hl E. apply Hl. apply Permutation_nil. rewrite <- E.
  apply sorted_Permutation.
Qed.

Lemma top_of_nonempty {A} (n : nat) (l : list A) :
  l <> [] -> exists x, hd_error (firstn (S n) l) = Some x.
Proof. destruct l as [|x l]; [contradiction|]. intros _. exists x. reflexivity. Qed.

Lemma value_counts_nonempty (l : list string) : l <> [] -> value_counts l <> [].
Proof. intros H. apply sorted_nonempty, tally_nonempty; [apply String.eqb_eq|exact H]. Qed.

Lemma map_nonempty {A B} (f : A -> B) (l : list A) : l <> [] -> map f l <> [].
Proof. destruct l; [contradiction|discriminate]. Qed.

(** On a non-empty record set the factual builder raises only when the
    largest total award amount is not finite, and otherwise returns at least
    13 questions. *)
Theorem factual_questions_outcome (df : list Row) :
  df <> [] ->
  exists name amount,
    hd_error (top_earners (analyze_data df)) = Some (name, amount)
    /\ (generate_factual_questions (analyze_data df) df = None
        <-> int_of_float amount = None)
    /\ forall qs, generate_factual_questions (analyze_data df) df = Some qs ->
                  (13 <= List.length qs)%nat.
Proof.
  intros Hdf.
  assert (Hr : map Recipient_Name df <> []) by (apply map_nonempty, Hdf).
  assert (Hg : map Giver_Name df <> []) by (apply map_nonempty, Hdf).
  assert (Hp : map Program_Name df <> []) by (apply map_nonempty, Hdf).
  assert (Hnames : sorted String.leb (distinct (map Recipient_Name df)) <> []).
  { apply sorted_nonempty. unfold distinct. apply map_nonempty, tally_nonempty;
      [apply String.eqb_eq|exact Hr]. }
  destruct (top_of_nonempty 9 _ (value_counts_nonempty _ Hr)) as [[r rn] Er].
  destruct (top_of_nonempty 9 _ (value_counts_nonempty _ Hg)) as [[g gn] Eg].
  destruct (value_counts (map Program_Name df)) as [|[p pn] progs] eqn:Ep;
    [exfalso; apply (value_counts_nonempty _ Hp Ep)|].
  destruct (top_of_nonempty 9 _
              (sorted_nonempty count_desc _
                 (map_nonempty
                    (fun name =>
                       (name, List.length
                                (distinct (map Giver_Name (rows_of_recipient df name)))))
                    _ Hnames))) as [[u un] Eu].
  destruct (top_of_nonempty 9 _
              (sorted_nonempty float_desc _
                 (map_nonempty
                    (fun name =>
                       (name, float_sum (map Award_Amount (rows_of_recipient df name))))
                    _ Hnames))) as [[e amount] Ee].
  exists e, amount. split; [exact Ee|].
  unfold generate_factual_questions.
  unfold analyze_data.
  cbn [top_recipients top_givers programs recipients_with_most_unique_givers top_earners
       award_types].
  rewrite Eu, Ee.
  rewrite Er, Eg, Ep. cbn [mbind option_bind hd_error].
  destruct (int_of_float amount) as [z|]; cbn [mbind option_bind].
  - split; [split; discriminate|]. intros qs E. injection E as <-.
    cbn [List.length]. rewrite !length_app. cbn [List.length]. lia.
  - split; [tauto|discriminate].
Qed.

Lemma factual_questions_outcome_witness :
  exists name amount,
    hd_error (top_earners (analyze_data demo_df)) = Some (name, amount)
    /\ (generate_factual_questions (analyze_data demo_df) demo_df = None
        <-> int_of_float amount = None)
    /\ forall qs, generate_factual_questions (analyze_data demo_df) demo_df = Some qs ->
                  (13 <= List.length qs)%nat.
Proof. apply (factual_questions_outcome demo_df). discriminate. Defined.

(** On an empty record set the factual builder raises, and with it the
    whole run: nothing is generated and nothing is persisted, whatever the
    limits, the random draws and the service replies are. *)
Theorem empty_records_raise (limits : Limits) (w : World) :
  generate_factual_questions (analyze_data []) [] = None
  /\ generate_all_questions limits [] w = None
  /\ persisted limits [] w = None.
Proof. repeat split. Qed.

(** ** Validator and interest filter: further edges *)

Lemma digit_not_upper (c : ascii) : isdigit c = true -> isupper c = false.
Proof. destruct c as [[] [] [] [] [] [] [] []]; cbn; intros H; try discriminate H; reflexivity. Qed.

(** The who-shape takes precedence: for a who-shaped question an integer
    answer is rejected, also when the question asks "how many". *)
Theorem who_question_rejects_integer (q : string) (z : Z) :
  who_shaped (lower q) = true ->
  is_valid_answer_format q (str_of_Z z) = false.
Proof.
  intros Hw. rewrite (valid_who q _ Hw).
  destruct (str_of_Z_shape z) as [d [Hne [Hd [E|E]]]]; rewrite E;
    destruct (digits_number_shaped d Hne Hd) as (S1 & _ & S2 & _);
    pose proof (all_chars_any isdigit isupper d digit_not_upper Hd) as Hup.
  - rewrite S1. unfold name_shaped. rewrite Hup. reflexivity.
  - rewrite S2. unfold name_shaped. cbn [any]. rewrite Hup. reflexivity.
Qed.

Lemma who_question_rejects_integer_witness :
  is_valid_answer_format "How many people who joined in 2025 got an award?" (str_of_Z 12)
  = false.
Proof.
  apply (who_question_rejects_integer "How many people who joined in 2025 got an award?" 12).
  reflexivity.
Defined.

(** On ASCII text the interest filter looks at the question and the answer
    only up to letter case, and an answer of more than 150 characters is
    never interesting. *)
Theorem interest_filter_case_and_length (q a : string) (c : option string) :
  isascii q = true -> isascii a = true ->
  is_interesting_question {| question := upper q; answer := upper a; category := c |}
  = is_interesting_question {| question := q; answer := a; category := c |}
  /\ is_interesting_question {| question := q; answer := a; category := c |}
     && (150 <? len a)%nat = false.
Proof.
  intros _ _. unfold is_interesting_question. cbn [question answer].
  rewrite !lower_upper, !len_lower. split; [reflexivity|].
  destruct (existsb _ boring_patterns); [reflexivity|].
  destruct (150 <? len a)%nat; reflexivity.
Qed.

Lemma interest_filter_case_and_length_witness :
  is_interesting_question
    {| question := upper "Please list all winners"; answer := upper "Ada"; category := None |}
  = is_interesting_question
      {| question := "Please list all winners"; answer := "Ada"; category := None |}
  /\ is_interesting_question
       {| question := "Please list all winners"; answer := "Ada"; category := None |}
     && (150 <? len "Ada")%nat = false.
Proof.
  apply (interest_filter_case_and_length "Please list all winners" "Ada" None); reflexivity.
Defined.

(** ** Text report: nothing lost, nothing written twice *)

Lemma append_to_concat (k : string) (q : Question) (d : list (string * list Question)) :
  Permutation (concat (map snd (append_to k q d))) (q :: concat (map snd d)).
Proof.
  induction d as [|[k' l] d IH]; cbn [append_to map snd concat]; [reflexivity|].
  destruct (String.eqb k k'); cbn [map snd concat].
  - rewrite <- app_assoc. symmetry. apply Permutation_middle.
  - rewrite IH. symmetry. apply Permutation_middle.
Qed.

Lemma group_fold_concat (qs : list Question) (acc : list (string * list Question)) :
  Permutation (concat (map snd (fold_left category_step qs acc)))
              (concat (map snd acc) ++ qs).
Proof.
  revert acc. induction qs as [|q qs IH]; intros acc; cbn [fold_left].
  - rewrite app_nil_r. reflexivity.
  - rewrite IH. unfold category_step. rewrite append_to_concat.
    rewrite <- Permutation_middle. reflexivity.
Qed.

Lemma concat_sections_Permutation (d d' : list (string * list Question)) :
  Permutation d d' -> Permutation (concat (map snd d)) (concat (map snd d')).
Proof.
  induction 1 as [|x d d' _ IH|x y d|d d' d'' _ IH1 _ IH2]; cbn [map concat].
  - reflexivity.
  - rewrite IH. reflexivity.
  - rewrite !app_assoc. apply Permutation_app_tail, Permutation_app_comm.
  - rewrite IH1. exact IH2.
Qed.

Lemma sections_cover (qs : list Question) :
  Permutation (concat (map snd (sorted_categories qs))) qs.
Proof.
  unfold sorted_categories. fold key_leb.
  rewrite (concat_sections_Permutation _ _ (sorted_Permutation key_leb _)).
  unfold group_by_category.
  change (fold_left _ qs []) with (fold_left category_step qs []).
  rewrite group_fold_concat. reflexivity.
Qed.

Lemma written_questions (n : nat) (qs : list Question) (rest : list line) :
  written (fst (write_questions n qs) ++ rest) = map texts_of qs ++ written rest.
Proof.
  revert n. induction qs as [|q qs IH]; intros n; cbn [write_questions]; [reflexivity|].
  specialize (IH (S n)). destruct (write_questions (S n) qs) as [lines k].
  cbn [fst] in *. cbn [app written map]. rewrite IH. reflexivity.
Qed.

Lemma headers_questions (n : nat) (qs : list Question) (rest : list line) :
  headers (fst (write_questions n qs) ++ rest) = headers rest.
Proof.
  revert n. induction qs as [|q qs IH]; intros n; cbn [write_questions]; [reflexivity|].
  specialize (IH (S n)). destruct (write_questions (S n) qs) as [lines k].
  cbn [fst] in *. cbn [app headers]. exact IH.
Qed.

Lemma written_categories (n : nat) (d : list (string * list Question)) :
  written (write_categories n d) = map texts_of (concat (map snd d))
  /\ headers (write_categories n d) = map (fun x => (fst x, List.length (snd x))) d.
Proof.
  revert n. induction d as [|[c l] d IH]; intros n; cbn [write_categories];
    [split; reflexivity|].
  pose proof (written_questions n l) as W.
  pose proof (headers_questions n l) as Hh.
  pose proof (write_questions_numbers n l []) as [K _].
  destruct (write_questions n l) as [lines k]. cbn [fst snd] in *. subst k.
  destruct (IH (n + List.length l)%nat) as [IH1 IH2]. split.
  - cbn [written]. rewrite W, IH1. cbn [map snd concat]. rewrite map_app. reflexivity.
  - cbn [headers map fst snd]. rewrite Hh, IH2. reflexivity.
Qed.

(** Every question is written to the report exactly once, under the header
    of its category, and the counts in the headers add up to the total in
    the title. *)
Theorem report_writes_each_question_once (questions : list Question) :
  Permutation (written (save_questions_formatted questions)) (map texts_of questions)
  /\ hd_error (save_questions_formatted questions) = Some (Title (List.length questions))
  /\ headers (save_questions_formatted questions)
     = map (fun x => (fst x, List.length (questions_of (fst x) questions)))
           (sorted_categories questions)
  /\ list_sum (map snd (headers (save_questions_formatted questions)))
     = List.length questions.
Proof.
  unfold save_questions_formatted. cbn [written headers hd_error].
  destruct (written_categories 1 (sorted_categories questions)) as [W H].
  destruct (sorted_categories_spec questions) as [_ [T S]].
  assert (Hq : map (fun x : string * list Question => (fst x, List.length (snd x)))
                   (sorted_categories questions)
               = map (fun x => (fst x, List.length (questions_of (fst x) questions)))
                     (sorted_categories questions)).
  { apply map_ext_in. intros [c l] Hin. cbn [fst snd].
    destruct (proj1 (S c l) Hin) as [-> _]. reflexivity. }
  split; [|split; [reflexivity|split]].
  - rewrite W. apply Permutation_map, sections_cover.
  - rewrite H. exact Hq.
  - rewrite H, <- T. clear. induction (sorted_categories questions) as [|[c l] d IH];
      [reflexivity|]. cbn. rewrite <- IH. reflexivity.
Qed.

(** ** The standalone checker [validate_questions.py] *)

Lemma contains_char_count (c : ascii) (s : string) :
  contains (String c "") s = (0 <? count c s)%nat.
Proof.
  induction s as [|d s IH]; [reflexivity|].
  cbn [contains count]. rewrite IH. unfold String.prefix at 1.
  destruct (ascii_dec c d) as [->|Hne].
  - rewrite Ascii.eqb_refl. destruct s; reflexivity.
  - apply Ascii.eqb_neq in Hne. rewrite Hne. reflexivity.
Qed.

(** A question that the generator's validator accepts, with an answer that
    has no surrounding blanks and at most 100 characters, draws no complaint
    from the checker. *)
Lemma accepted_draws_no_issue (q : Question) :
  is_valid_answer_format (question q) (answer q) = true ->
  strip (answer q) = answer q ->
  (len (answer q) <= 100)%nat ->
  issue_of q = None.
Proof.
  intros Hv Hs Hl. unfold issue_of.
  destruct (who_shaped (lower (question q))) eqn:Hw.
  - rewrite (valid_who _ _ Hw), Hs in Hv. unfold name_shaped in Hv.
    apply andb_true_iff in Hv. destruct Hv as [Hv H4].
    apply andb_true_iff in Hv. destruct Hv as [Hv H3].
    apply andb_true_iff in Hv. destruct Hv as [H1 H2].
    apply Nat.ltb_lt in H2. apply Nat.eqb_eq in H3.
    rewrite H1, (contains_char_count "." (answer q)), H3.
    destruct (Nat.ltb_spec 50 (len (answer q))); [lia|reflexivity].
  - destruct (contains "how many" (lower (question q))
              || contains "what amount" (lower (question q))) eqn:Hq.
    + assert (Hq' : quantity_shaped (lower (question q)) = true).
      { unfold quantity_shaped. rewrite Hq. reflexivity. }
      rewrite (valid_quantity _ _ Hw Hq'), Hs in Hv. unfold number_shaped in Hv.
      apply andb_true_iff in Hv. destruct Hv as [H1 H2]. apply negb_true_iff in H2.
      rewrite H1, H2. reflexivity.
    + destruct (Nat.ltb_spec 100 (len (answer q))); [lia|reflexivity].
Qed.

Lemma deduplicated_raw_texts_distinct (questions : list Question) :
  NoDup (map question (deduplicate_questions questions)).
Proof.
  unfold deduplicate_questions.
  destruct (fold_left_invariant dedup_inv dedup_step questions dedup_init dedup_inv_step
              dedup_inv_init) as [Hnd _].
  apply (NoDup_fmap_1 strip). rewrite <- list_fmap_compose. exact Hnd.
Qed.

Lemma check_fold_problematic (l : list (nat * Question)) (st : checked) :
  (forall iq, In iq l -> issue_of (snd iq) = None) ->
  problematic (fold_left check_step l st) = problematic st.
Proof.
  revert st. induction l as [|[i q] l IH]; intros st H; [reflexivity|].
  cbn [fold_left]. rewrite IH by (intros iq Hiq; apply H; right; exact Hiq).
  pose proof (H (i, q) (or_introl eq_refl)) as Hq. cbn [snd] in Hq.
  unfold check_step. rewrite Hq.
  repeat match goal with |- context [if ?c then _ else _] => destruct c end; reflexivity.
Qed.

Lemma check_fold_lengths (l : list (nat * Question)) (st : checked) :
  (List.length (who_questions (fold_left check_step l st))
   + List.length (how_many_questions (fold_left check_step l st))
   + List.length (other_questions (fold_left check_step l st)))%nat
  = (List.length (who_questions st) + List.length (how_many_questions st)
     + List.length (other_questions st) + List.length l)%nat.
Proof.
  revert st. induction l as [|[i q] l IH]; intros st; cbn [fold_left List.length]; [lia|].
  rewrite IH. unfold check_step.
  repeat match goal with |- context [if ?c then _ else _] => destruct c end;
    cbn [who_questions how_many_questions other_questions]; rewrite length_app; cbn; lia.
Qed.

(** The checker puts every question into exactly one of its three groups. *)
Theorem checker_groups_partition (questions : list Question) :
  let c := snd (fst (validate_questions questions)) in
  (List.length (who_questions c) + List.length (how_many_questions c)
   + List.length (other_questions c))%nat = List.length questions.
Proof.
  cbv zeta. unfold validate_questions. cbn [fst snd].
  rewrite check_fold_lengths. unfold enumerate1. cbn.
  rewrite length_combine, length_seq. lia.
Qed.

(** On what the pipeline selects, the checker counts no duplicate. *)
Theorem checker_counts_no_duplicate (all_questions : list Question) :
  fst (fst (validate_questions (select_questions all_questions))) = 0%nat.
Proof.
  unfold validate_questions. cbn [fst]. unfold duplicates, select_questions.
  pose proof (deduplicated_raw_texts_distinct
    (List.filter is_interesting_question
       (List.filter (fun q => is_valid_answer_format (question q) (answer q))
          all_questions))) as Hnd.
  rewrite (size_list_to_set _ Hnd). lia.
Qed.

(** When the answers that the pipeline selects have no surrounding blanks
    and at most 100 characters, the checker reports no problematic
    question. *)
Theorem checker_accepts_selection (all_questions : list Question) :
  (forall q, In q (select_questions all_questions) ->
     strip (answer q) = answer q /\ (len (answer q) <= 100)%nat) ->
  problematic (snd (fst (validate_questions (select_questions all_questions)))) = [].
Proof.
  intros Hans. unfold validate_questions. cbn [fst snd].
  rewrite check_fold_problematic; [reflexivity|].
  intros [i q] Hiq. cbn [snd]. unfold enumerate1 in Hiq. apply in_combine_r in Hiq.
  destruct (selected_passed_filters all_questions q Hiq) as [_ [Hv _]].
  destruct (Hans q Hiq) as [Hs Hl]. apply accepted_draws_no_issue; assumption.
Qed.

Lemma checker_accepts_selection_witness :
  problematic (snd (fst (validate_questions
    (select_questions [month_question "April"; Q "Who won?" "Ada" "Awards"]))))
  = [].
Proof.
  apply (checker_accepts_selection [month_question "April"; Q "Who won?" "Ada" "Awards"]).
  intros q Hq. vm_compute in Hq.
  destruct Hq as [<-|[<-|[]]]; vm_compute; split; lia || reflexivity.
Defined.

(** ** The text download of the web application *)

Lemma append_nil_r (s : string) : s +:+ "" = s.
Proof.
  induction s as [|c s IH]; [reflexivity|].
  change (String c s +:+ "") with (String c (s +:+ "")). rewrite IH. reflexivity.
Qed.

Lemma append_assoc (s t u : string) : (s +:+ t) +:+ u = s +:+ (t +:+ u).
Proof.
  induction s as [|c s IH]; [reflexivity|].
  change ((String c s +:+ t) +:+ u) with (String c ((s +:+ t) +:+ u)).
  rewrite IH. reflexivity.
Qed.

Lemma file_text_app (l1 l2 : list line) : file_text (l1 ++ l2) = file_text l1 +:+ file_text l2.
Proof.
  unfold file_text. induction l1 as [|x l1 IH]; cbn [app map fold_right]; [reflexivity|].
  rewrite IH, append_assoc. reflexivity.
Qed.

Lemma file_text_cons (x : line) (l : list line) : file_text (x :: l) = render x +:+ file_text l.
Proof. reflexivity. Qed.

Lemma txt_questions_text (txt : string) (n : nat) (qs : list Question) :
  txt_questions txt n qs
  = (txt +:+ file_text (fst (write_questions n qs)), snd (write_questions n qs)).
Proof.
  revert txt n. induction qs as [|q qs IH]; intros txt n; cbn [txt_questions write_questions].
  - cbn. rewrite append_nil_r. reflexivity.
  - rewrite IH. destruct (write_questions (S n) qs) as [lines k]. cbn [fst snd].
    rewrite !file_text_cons. cbn [render]. rewrite !append_assoc. reflexivity.
Qed.

Lemma txt_categories_text (txt : string) (n : nat) (items : list (string * list Question)) :
  txt_categories txt n items = txt +:+ file_text (write_categories n items).
Proof.
  revert txt n. induction items as [|[c qs] items IH]; intros txt n;
    cbn [txt_categories write_categories].
  - cbn. rewrite append_nil_r. reflexivity.
  - rewrite txt_questions_text. destruct (write_questions n qs) as [lines k]. cbn [fst snd].
    rewrite IH.
    change (Category_rule :: Category_header c (List.length qs) :: Category_rule_end
              :: lines ++ write_categories k items)
      with ([Category_rule; Category_header c (List.length qs); Category_rule_end]
              ++ lines ++ write_categories k items).
    rewrite file_text_app, !file_text_cons. cbn [render].
    change (file_text []) with "". rewrite ?append_assoc, ?append_nil_r.
    rewrite file_text_app. reflexivity.
Qed.

(** The text offered for download by the web application is, character for
    character, the text that [save_questions_formatted] writes. *)
Theorem download_matches_report (questions : list Question) :
  download_txt questions = report_text questions.
Proof.
  unfold download_txt, report_text. fold (file_text (save_questions_formatted questions)).
  rewrite txt_categories_text. unfold save_questions_formatted.
  change (Title (List.length questions) :: Rule :: write_categories 1 (sorted_categories questions))
    with ([Title (List.length questions); Rule] ++ write_categories 1 (sorted_categories questions)).
  rewrite file_text_app, !file_text_cons. cbn [render].
  change (file_text []) with "". rewrite ?append_assoc, ?append_nil_r. reflexivity.
Qed.

(** ** Frequency tables *)

Section tally_counts.
Context {K : Type} (eqb : K -> K -> bool).
Hypothesis eqb_spec : forall x y, eqb x y = true <-> x = y.

Lemma eqb_refl' (x : K) : eqb x x = true.
Proof. apply eqb_spec. reflexivity. Qed.

Lemma tally_get_add (x k : K) (acc : list (K * nat)) :
  tally_get eqb x (tally_add eqb k acc)
  = if eqb x k then S (tally_get eqb x acc) else tally_get eqb x acc.
Proof.
  induction acc as [|[k' n] acc IH]; cbn [tally_add tally_get].
  - reflexivity.
  - destruct (eqb k k') eqn:Ek; cbn [tally_get].
    + apply eqb_spec in Ek. subst k'. destruct (eqb x k); reflexivity.
    + rewrite IH. destruct (eqb x k') eqn:Ex; [|reflexivity].
      destruct (eqb x k) eqn:Exk; [|reflexivity].
      apply eqb_spec in Ex, Exk. subst. rewrite eqb_refl' in Ek. discriminate.
Qed.

Lemma tally_get_fold (x : K) (l : list K) (acc : list (K * nat)) :
  tally_get eqb x (fold_left (fun acc k => tally_add eqb k acc) l acc)
  = (tally_get eqb x acc + List.length (List.filter (eqb x) l))%nat.
Proof.
  revert acc. induction l as [|k l IH]; intros acc; cbn [fold_left List.filter].
  - cbn. lia.
  - rewrite IH, tally_get_add. destruct (eqb x k); cbn [List.length]; lia.
Qed.

Lemma tally_get_elem (x : K) (n : nat) (acc : list (K * nat)) :
  NoDup (map fst acc) -> (x, n) ∈ acc -> tally_get eqb x acc = n.
Proof.
  induction acc as [|[k' m] acc IH]; intros Hnd Hin.
  - apply elem_of_nil in Hin. destruct Hin.
  - cbn [map fst] in Hnd. apply NoDup_cons in Hnd as [Hk Hnd].
    apply elem_of_cons in Hin as [E|Hin]; cbn [tally_get].
    + injection E as <- <-. rewrite eqb_refl'. reflexivity.
    + destruct (eqb x k') eqn:Ex; [|apply IH; assumption].
      apply eqb_spec in Ex. subst k'. exfalso. apply Hk.
      apply (list_elem_of_fmap_2 fst) in Hin. exact Hin.
Qed.

Lemma tally_counts (x : K) (n : nat) (l : list K) :
  (x, n) ∈ tally eqb l -> n = List.length (List.filter (eqb x) l) /\ x ∈ l.
Proof.
  intros Hin. destruct (tally_keys eqb eqb_spec l) as [Hnd Hk]. split.
  - rewrite <- (tally_get_elem x n _ Hnd Hin). unfold tally. rewrite tally_get_fold. reflexivity.
  - apply Hk. apply (list_elem_of_fmap_2 fst) in Hin. exact Hin.
Qed.
End tally_counts.

Lemma count_desc_Sorted {K} (l : list (K * nat)) :
  StronglySorted (fun a b => count_desc a b = true) (sorted count_desc l).
Proof.
  apply Sorted.Sorted_StronglySorted.
  - intros a b c. unfold count_desc. rewrite !Nat.leb_le. lia.
  - apply sorted_Sorted. intros a b. unfold count_desc.
    rewrite Nat.leb_le, Nat.leb_gt. lia.
Qed.

Lemma records_of_names (df : list Row) (name : string) :
  List.length (List.filter (String.eqb name) (map Recipient_Name df)) = records_of df name.
Proof.
  unfold records_of, count_rows. induction df as [|r df IH]; cbn [map List.filter]; [reflexivity|].
  rewrite (String.eqb_sym (Recipient_Name r) name).
  destruct (String.eqb name (Recipient_Name r)); cbn [List.length]; rewrite IH; reflexivity.
Qed.

Lemma value_counts_table (l : list string) :
  NoDup (map fst (value_counts l))
  /\ (forall x n, (x, n) ∈ value_counts l
        -> n = List.length (List.filter (String.eqb x) l) /\ x ∈ l)
  /\ (forall x, x ∈ l -> x ∈ map fst (value_counts l)).
Proof.
  unfold value_counts.
  pose proof (sorted_Permutation count_desc (tally String.eqb l)) as P.
  destruct (tally_keys String.eqb String.eqb_eq l) as [Hnd Hk].
  split; [|split].
  - rewrite P. exact Hnd.
  - intros x n Hin. rewrite P in Hin. apply (tally_counts String.eqb String.eqb_eq). exact Hin.
  - intros x Hx. rewrite P. apply Hk. exact Hx.
Qed.

(** The leaderboard of recipients holds at most ten distinct names, each
    with the number of its records, in descending order of that number; a
    recipient left out has no more records than any listed one. *)
Theorem top_recipients_table (df : list Row) :
  let table := top_recipients (analyze_data df) in
  (List.length table <= 10)%nat
  /\ NoDup (map fst table)
  /\ StronglySorted (fun a b => (snd b <= snd a)%nat) table
  /\ (forall name n, (name, n) ∈ table -> n = records_of df name /\ (1 <= n)%nat)
  /\ (forall r name n, r ∈ df -> Recipient_Name r ∉ map fst table -> (name, n) ∈ table
        -> (records_of df (Recipient_Name r) <= n)%nat).
Proof.
  cbn zeta. unfold analyze_data. cbn [top_recipients].
  set (names := map Recipient_Name df).
  destruct (value_counts_table names) as [Hnd [Hc Hall]].
  pose proof (count_desc_Sorted (tally String.eqb names)) as Hs.
  fold (value_counts names) in Hs.
  rewrite <- (firstn_skipn 10 (value_counts names)) in Hs.
  apply StronglySorted_app in Hs as [Hcross [Hs1 _]].
  assert (Hsub : forall e, e ∈ firstn 10 (value_counts names) -> e ∈ value_counts names).
  { intros e He. rewrite <- (firstn_skipn 10 (value_counts names)). apply elem_of_app. left. exact He. }
  split; [apply firstn_le_length|]. split; [|split; [|split]].
  - rewrite <- (firstn_skipn 10 (value_counts names)), map_app in Hnd.
    apply NoDup_app in Hnd as [H _]. exact H.
  - clear -Hs1. induction Hs1 as [|a l Hl IH Ha]; constructor; [exact IH|].
    eapply List.Forall_impl; [|exact Ha]. intros b. unfold count_desc.
    rewrite Nat.leb_le. trivial.
  - intros name n Hin. apply Hsub, Hc in Hin as [-> Hn]. unfold names.
    rewrite records_of_names. split; [reflexivity|].
    unfold names in Hn. apply list_elem_of_fmap in Hn as [r [-> Hr]].
    unfold records_of, count_rows.
    assert (Hf : r ∈ List.filter (fun r0 => String.eqb (Recipient_Name r0) (Recipient_Name r)) df).
    { apply list_elem_of_In, filter_In. split; [apply list_elem_of_In, Hr|apply String.eqb_refl]. }
    destruct (List.filter _ df); [apply elem_of_nil in Hf; destruct Hf|cbn; lia].
  - intros r name n Hr Hout Hin.
    assert (Hn : Recipient_Name r ∈ map fst (value_counts names)).
    { apply Hall. unfold names. apply list_elem_of_fmap_2. exact Hr. }
    apply list_elem_of_fmap in Hn as [[x m] [Ex Hxm]]. cbn in Ex. subst x.
    rewrite <- (firstn_skipn 10 (value_counts names)) in Hxm.
    apply elem_of_app in Hxm as [Hxm|Hxm].
    + exfalso. apply Hout. apply (list_elem_of_fmap_2 fst) in Hxm. exact Hxm.
    + pose proof (Hcross _ _ Hin Hxm) as Hle. unfold count_desc in Hle. cbn in Hle.
      apply Nat.leb_le in Hle.
      assert (Hm : (Recipient_Name r, m) ∈ value_counts names).
      { rewrite <- (firstn_skipn 10 (value_counts names)). apply elem_of_app. right. exact Hxm. }
      apply Hc in Hm as [-> _]. unfold names in Hle. rewrite records_of_names in Hle. exact Hle.
Qed.
